(** * Retail cleaning pipeline ([retail_pipeline.py]): model and properties

    The pipeline reads one CSV into a pandas [DataFrame], runs eight stages
    over it and writes the cleaned table, two logs and three summary tables.
    This file embeds the stages as Rocq functions and proves the properties
    stated for them.

    Modelling conventions.
    - A cell is missing ([NaN], which also stands for [NaT] and [None]), a
      string, a number, a boolean or a timestamp.
    - Numbers are exact rationals ([Qc]); float64 rounding, infinities and
      signed zeros are not modelled.  A float that may be NaN is [option Qc].
    - Strings are Rocq strings, one character per ISO-8859-1 code point (the
      encoding [read_csv] is called with).  Case mapping covers the ASCII
      letters; the other characters are uncased.
    - A row is a finite map from column name to cell; a table is its list of
      column names and its rows, each with its index label.
    - [astype(str)] follows pandas 1.x/2.x on object columns: the missing
      marker becomes the text "nan".
    - The parsers behind [pd.to_datetime], [pd.to_numeric] and [float], the
      printers behind [str] and the default (unstable) sorting algorithm of
      [sort_values] are parameters of the model. *)

From Stdlib Require Import QArith Qcanon Qround ZArith Ascii String.
From stdpp Require Import gmap strings pretty list sorting.

Local Open Scope string_scope.
Local Open Scope list_scope.

(** ** Cells *)

Record Timestamp := { ts_year : Z; ts_month : Z; ts_day : Z; ts_nanos : Z }.

Inductive cell : Type :=
  | NaN
  | Str (s : string)
  | Num (x : Qc)
  | Bool (b : bool)
  | Date (t : Timestamp).

#[global] Instance Qc_eq_decision : EqDecision Qc := Qc_eq_dec.
#[global] Instance Timestamp_eq_decision : EqDecision Timestamp.
Proof. solve_decision. Defined.
#[global] Instance cell_eq_decision : EqDecision cell.
Proof. solve_decision. Defined.
#[global] Instance cell_inhabited : Inhabited cell := populate NaN.

(** [pd.isna] on one value. *)
Definition isna (c : cell) : bool :=
  match c with NaN => true | _ => false end.

(** ** Strings: [str.strip] and [str.title] *)

Module PyStr.

Definition code (c : ascii) : N := N_of_ascii c.

(** Characters removed by [str.strip()] among the code points below 256. *)
Definition isspace (c : ascii) : bool :=
  let n := code c in
  ((9 <=? n) && (n <=? 13) || (28 <=? n) && (n <=? 32)
   || (n =? 133) || (n =? 160))%N.

Definition isupper (c : ascii) : bool :=
  let n := code c in ((65 <=? n) && (n <=? 90))%N.

Definition islower (c : ascii) : bool :=
  let n := code c in ((97 <=? n) && (n <=? 122))%N.

Definition iscased (c : ascii) : bool := isupper c || islower c.

Definition upper (c : ascii) : ascii :=
  if islower c then ascii_of_N (code c - 32) else c.

Definition lower (c : ascii) : ascii :=
  if isupper c then ascii_of_N (code c + 32) else c.

Fixpoint lstrip (s : string) : string :=
  match s with
  | String c s' => if isspace c then lstrip s' else s
  | EmptyString => EmptyString
  end.

(** Strips on the right: a character is kept when something is kept
    after it or when it is not a space. *)
Fixpoint rstrip (s : string) : string :=
  match s with
  | String c s' =>
      match rstrip s' with
      | EmptyString => if isspace c then EmptyString else String c EmptyString
      | r => String c r
      end
  | EmptyString => EmptyString
  end.

Definition strip (s : string) : string := rstrip (lstrip s).

(** [str.title]: a cased character is upper-cased when the previous
    character is not cased and lower-cased when it is. *)
Fixpoint title_from (previous_is_cased : bool) (s : string) : string :=
  match s with
  | String c s' =>
      String (if previous_is_cased then lower c else upper c)
             (title_from (iscased c) s')
  | EmptyString => EmptyString
  end.

Definition title (s : string) : string := title_from false s.

End PyStr.

(** ** Rows, series and tables *)

Abbreviation Row := (gmap string cell).

(** A series: index label and value, in order. *)
Abbreviation Series := (list (nat * cell)).

Record DataFrame := {
  columns : list string;
  rows : list (nat * Row)
}.

(** [name in df.columns] *)
Definition has_column (name : string) (df : DataFrame) : bool :=
  bool_decide (name ∈ columns df).

(** [df[name]] *)
Definition column (name : string) (df : DataFrame) : Series :=
  map (λ ir, (ir.1, ir.2 !!! name)) (rows df).

(** [df.index] *)
Definition index (df : DataFrame) : list nat := map fst (rows df).

(** [df[name] = s] for a series [s] computed from [df] itself, so that the
    two indexes are the same object and the values are matched in order. *)
Definition assign (name : string) (s : Series) (df : DataFrame) : DataFrame :=
  {| columns := if has_column name df then columns df else columns df ++ [name];
     rows := zip_with (λ ir lv, (ir.1, <[name := lv.2]> ir.2)) (rows df) s |}.

(** [s.apply(f)], value by value. *)
Definition smap (f : cell → cell) (s : Series) : Series :=
  map (λ lv, (lv.1, f lv.2)) s.

(** [s.dropna()] *)
Definition dropna_series (s : Series) : Series :=
  filter (λ lv, isna lv.2 = false) s.

(** [l[mask]]: the elements at the positions where the mask is true. *)
Fixpoint boolean_index {A} (mask : list bool) (l : list A) : list A :=
  match mask, l with
  | b :: mask', x :: l' =>
      if b then x :: boolean_index mask' l' else boolean_index mask' l'
  | _, _ => []
  end.

(** [df[mask]] for a boolean mask aligned with the rows of [df]. *)
Definition select (mask : list bool) (df : DataFrame) : DataFrame :=
  {| columns := columns df; rows := boolean_index mask (rows df) |}.

(** [df.empty]: some axis has length zero. *)
Definition is_empty (df : DataFrame) : bool :=
  match columns df, rows df with
  | [], _ | _, [] => true
  | _, _ => false
  end.

(** ** Floats that may be NaN *)

Abbreviation float := (option Qc).

Definition as_float (c : cell) : float :=
  match c with Num x => Some x | _ => None end.

Definition of_float (x : float) : cell :=
  match x with Some v => Num v | None => NaN end.

Definition fsub (a b : float) : float :=
  match a, b with Some x, Some y => Some (x - y)%Qc | _, _ => None end.
Definition fadd (a b : float) : float :=
  match a, b with Some x, Some y => Some (x + y)%Qc | _, _ => None end.
Definition fmul (a b : float) : float :=
  match a, b with Some x, Some y => Some (x * y)%Qc | _, _ => None end.

(** Comparisons with NaN are false. *)
Definition flt (a b : float) : bool :=
  match a, b with
  | Some x, Some y => bool_decide (x < y)%Qc
  | _, _ => false
  end.

Definition Qc_of_Z (z : Z) : Qc := Q2Qc (inject_Z z).
Definition Qc_of_nat (n : nat) : Qc := Qc_of_Z (Z.of_nat n).

(** ** Effects: files written, exceptions raised *)

Inductive event :=
  | ToCsv (path : string) (header : list string) (body : list Row)
  | SaveFig (path : string).

Inductive exn := ValueError | TypeError | KeyError.

Inductive result (A : Type) :=
  | Ok (a : A)
  | Raise (e : exn).
Arguments Ok {A} a.
Arguments Raise {A} e.

(** A computation takes the trace of events so far and returns its result
    with the extended trace; the trace survives an exception. *)
Definition IO (A : Type) : Type := list event → result A * list event.

Definition ret {A} (a : A) : IO A := λ tr, (Ok a, tr).

Definition bind {A B} (m : IO A) (k : A → IO B) : IO B :=
  λ tr, match m tr with
        | (Ok a, tr') => k a tr'
        | (Raise e, tr') => (Raise e, tr')
        end.

Definition emit (e : event) : IO unit := λ tr, (Ok tt, tr ++ [e]).

Definition lift {A} (r : result A) : IO A := λ tr, (r, tr).

Definition when (b : bool) (m : IO unit) : IO unit := if b then m else ret tt.

Notation "'let*' x ':=' m 'in' k" := (bind m (λ x, k))
  (at level 10, x name, m at level 100, k at level 200, only parsing).
Notation "m ;; k" := (bind m (λ _, k))
  (at level 100, k at level 200, right associativity, only parsing).

(** [df.to_csv(os.path.join(output_dir, name), index=False)]; paths are
    kept relative to the output directory. *)
Definition to_csv (df : DataFrame) (name : string) : IO unit :=
  emit (ToCsv name (columns df) (rows df).*2).

(** [mapM] for [result]: the first exception wins. *)
Fixpoint traverse {A B} (f : A → result B) (l : list A) : result (list B) :=
  match l with
  | [] => Ok []
  | x :: l' =>
      match f x with
      | Raise e => Raise e
      | Ok y => match traverse f l' with
                | Raise e => Raise e
                | Ok ys => Ok (y :: ys)
                end
      end
  end.

(** ** Quantiles and the interquartile rule *)

#[global] Instance Qcle_decision : RelDecision Qcle :=
  λ x y, decide (Qnum x * QDen y ≤ Qnum y * QDen x)%Z.
#[global] Instance Qclt_decision : RelDecision Qclt :=
  λ x y, decide (Qnum x * QDen y < Qnum y * QDen x)%Z.

(** The numeric values of a series; anything else counts as missing. *)
Definition numeric_values (s : Series) : list Qc :=
  omap (λ lv, as_float lv.2) s.

(** Linear interpolation between the two order statistics around the
    position [q * (n - 1)]; NaN on an empty list. *)
Definition interpolate (sorted : list Qc) (q : Qc) : float :=
  match sorted with
  | [] => None
  | x0 :: _ =>
      let pos := (q * Qc_of_nat (length sorted - 1))%Qc in
      let lo := Qfloor pos in
      let frac := (pos - Qc_of_Z lo)%Qc in
      let a := nth (Z.to_nat lo) sorted x0 in
      let b := nth (S (Z.to_nat lo)) sorted a in
      Some (a + (b - a) * frac)%Qc
  end.

(** [series.quantile(q)], default [interpolation="linear"], NaN skipped. *)
Definition quantile (series : Series) (q : Qc) : float :=
  interpolate (merge_sort Qcle (numeric_values series)) q.

Definition one_quarter : Qc := Q2Qc (1 # 4).
Definition three_quarters : Qc := Q2Qc (3 # 4).
Definition one_and_a_half : Qc := Q2Qc (3 # 2).

Definition detect_outliers_iqr (series : Series)
  : list (nat * bool) * float * float :=
  let q1 := quantile series one_quarter in
  let q3 := quantile series three_quarters in
  let iqr := fsub q3 q1 in
  let lower := fsub q1 (fmul (Some one_and_a_half) iqr) in
  let upper := fadd q3 (fmul (Some one_and_a_half) iqr) in
  let mask :=
    map (λ lv, (lv.1, flt (as_float lv.2) lower || flt upper (as_float lv.2)))
        series in
  (mask, lower, upper).

(** [full[labels] = values]: every entry of [full] carrying the label of an
    entry of [mask] takes its value.  Labels are unique in the tables the
    pipeline builds. *)
Definition setitem (full mask : list (nat * bool)) : list (nat * bool) :=
  foldl (λ acc lb, map (λ e, if decide (e.1 = lb.1) then (e.1, lb.2) else e) acc)
        full mask.

(** The flag column for [name]: false everywhere, then the mask computed on
    the non-missing values written at their labels. *)
Definition outlier_flags (name : string) (df : DataFrame) : Series :=
  let '(mask, lower, upper) :=
    detect_outliers_iqr (dropna_series (column name df)) in
  let full_mask := map (λ i, (i, false)) (index df) in
  map (λ lb, (lb.1, Bool lb.2)) (setitem full_mask mask).

Definition truthy (c : cell) : bool :=
  match c with Bool b => b | _ => false end.

(** [df[cols].any(axis=1)] *)
Definition any_axis1 (cols : list string) (df : DataFrame) : list bool :=
  map (λ ir, existsb (λ c, truthy (ir.2 !!! c)) cols) (rows df).

Definition flag_and_optionally_remove_outliers
    (df : DataFrame) (remove : bool) : IO DataFrame :=
  let outlier_cols := [] in
  let '(df, outlier_cols) :=
    if has_column "quantity" df
    then (assign "is_outlier_quantity" (outlier_flags "quantity" df) df,
          outlier_cols ++ ["is_outlier_quantity"])
    else (df, outlier_cols) in
  let '(df, outlier_cols) :=
    if has_column "unit_price" df
    then (assign "is_outlier_unit_price" (outlier_flags "unit_price" df) df,
          outlier_cols ++ ["is_outlier_unit_price"])
    else (df, outlier_cols) in
  match outlier_cols with
  | [] => ret df
  | _ =>
      let outliers_df := select (any_axis1 outlier_cols df) df in
      when (negb (is_empty outliers_df))
           (to_csv outliers_df "outliers_logged.csv") ;;
      ret (if remove
           then select (map negb (any_axis1 outlier_cols df)) df
           else df)
  end.

(** ** Validity filter and duplicate detector *)

(** [df.dropna(subset=cols)] *)
Definition dropna (subset : list string) (df : DataFrame) : DataFrame :=
  select (map (λ ir, forallb (λ c, negb (isna (ir.2 !!! c))) subset) (rows df))
         df.

Definition drop_invalid_invoices (df : DataFrame) : DataFrame :=
  let cols_to_check := [] in
  let cols_to_check :=
    if has_column "invoice_no" df
    then cols_to_check ++ ["invoice_no"] else cols_to_check in
  let cols_to_check :=
    if has_column "invoice_date" df
    then cols_to_check ++ ["invoice_date"] else cols_to_check in
  match cols_to_check with
  | [] => df
  | _ => dropna cols_to_check df
  end.

(** [duplicated(keep=False)]: the row occurs at least twice. *)
Definition duplicated_all (l : list Row) : list bool :=
  map (λ r, bool_decide (2 ≤ length (filter (λ r', r' = r) l))%nat) l.

(** [duplicated()], default [keep="first"]: the row occurred before. *)
Fixpoint duplicated_from (seen l : list Row) : list bool :=
  match l with
  | [] => []
  | r :: l' => bool_decide (r ∈ seen) :: duplicated_from (r :: seen) l'
  end.

Definition duplicated (l : list Row) : list bool := duplicated_from [] l.

Definition drop_duplicates (df : DataFrame) : DataFrame :=
  select (map negb (duplicated (rows df).*2)) df.

(** The rows of the duplicate log. *)
Definition duplicate_log (df : DataFrame) : DataFrame :=
  select (duplicated_all (rows df).*2) df.

Definition deduplicate_and_log (df : DataFrame) : IO DataFrame :=
  let duplicates := duplicate_log df in
  when (negb (is_empty duplicates))
       (to_csv duplicates "duplicates_logged.csv") ;;
  ret (drop_duplicates df).

(** ** Group keys and their order *)

Definition timestamp_leb (s t : Timestamp) : bool :=
  let key (u : Timestamp) := [ts_year u; ts_month u; ts_day u; ts_nanos u] in
  bool_decide (lexico (key s) (key t) ∨ key s = key t).

Definition cell_rank (c : cell) : nat :=
  match c with Bool _ => 0 | Num _ => 1 | Date _ => 2 | Str _ => 3 | NaN => 4 end.

(** The order in which [groupby] and [sort_values] arrange keys: numbers by
    value, strings by code point, the missing marker last.  A column holds
    one kind of value; across kinds the order is by [cell_rank]. *)
Definition cell_leb (a b : cell) : bool :=
  match a, b with
  | Num x, Num y => bool_decide (x ≤ y)%Qc
  | Str s, Str t => bool_decide (s = t) || String.ltb s t
  | Bool x, Bool y => implb x y
  | Date s, Date t => timestamp_leb s t
  | _, _ => (cell_rank a <=? cell_rank b)%nat
  end.

Fixpoint key_leb (a b : list cell) : bool :=
  match a, b with
  | [], _ => true
  | _ :: _, [] => false
  | x :: a', y :: b' => if decide (x = y) then key_leb a' b' else cell_leb x y
  end.

Definition key_le (a b : list cell) : Prop := key_leb a b = true.
#[global] Instance key_le_decision : RelDecision key_le.
Proof. intros a b. unfold key_le. apply _. Defined.

Definition key_of (by_ : list string) (r : Row) : list cell :=
  map (λ k, r !!! k) by_.

(** Sum of the non-missing values of a column over some rows. *)
Definition sum_column (value : string) (members : list Row) : Qc :=
  foldr Qcplus (Q2Qc 0) (omap (λ r : Row, as_float (r !!! value)) members).

(** [df.groupby(by_, dropna=dropna)[value].sum().reset_index()]: one row
    per distinct key, in key order; [dropna] leaves out the rows with a
    missing key. *)
Definition groupby_sum (by_ : list string) (dropna : bool) (value : string)
    (df : DataFrame) : DataFrame :=
  let kept :=
    filter (λ r, negb dropna || forallb (λ c, negb (isna c)) (key_of by_ r) = true)
           (rows df).*2 in
  let keys := merge_sort key_le (remove_dups (map (key_of by_) kept)) in
  {| columns := by_ ++ [value];
     rows :=
       imap (λ i k,
               (i, <[value := Num (sum_column value
                                     (filter (λ r, key_of by_ r = k) kept))]>
                     (list_to_map (zip by_ k) : Row)))
            keys |}.

(** [df.sort_values(by_)] for a list of columns: the rows in the
    lexicographic order of their keys.  It is used on grouped rows, whose
    keys are distinct. *)
Definition rows_le (by_ : list string) (a b : nat * Row) : Prop :=
  key_le (key_of by_ a.2) (key_of by_ b.2).
#[global] Instance rows_le_decision by_ : RelDecision (rows_le by_).
Proof. intros a b. unfold rows_le. apply _. Defined.

Definition sort_values_asc (by_ : list string) (df : DataFrame) : DataFrame :=
  {| columns := columns df; rows := merge_sort (rows_le by_) (rows df) |}.

(** [pd.DataFrame()] *)
Definition empty_frame : DataFrame := {| columns := []; rows := [] |}.

(** ** The stages that parse, print or sort *)

Section Pipeline.

(** [pd.to_datetime(s, errors="coerce")] at one value of the series [s]
    (the format may be guessed from the whole series); [None] when the
    value does not parse. *)
Variable parse_datetime : list cell → cell → option Timestamp.

(** [pd.to_numeric(s, errors="coerce")] at one value; [None] when the
    value does not parse. *)
Variable parse_numeric : cell → option Qc.

(** Python's [float(s)]; [None] when it raises [ValueError]. *)
Variable float_of_str : string → option float.

(** [str(x)] for a number and for a timestamp. *)
Variable str_of_num : Qc → string.
Variable str_of_date : Timestamp → string.

(** The rows of [df.sort_values(by, ascending=False)], default
    [kind="quicksort"]. *)
Variable sort_values_desc : string → list (nat * Row) → list (nat * Row).

Definition to_datetime (s : Series) : Series :=
  smap (λ c, match parse_datetime s.*2 c with
             | Some t => Date t
             | None => NaN
             end) s.

Definition to_numeric (s : Series) : Series :=
  smap (λ c, of_float (parse_numeric c)) s.

Definition convert_dtypes (df : DataFrame) : DataFrame :=
  let df :=
    if has_column "invoice_date" df
    then assign "invoice_date" (to_datetime (column "invoice_date" df)) df
    else df in
  let df :=
    if has_column "quantity" df
    then assign "quantity" (to_numeric (column "quantity" df)) df
    else df in
  let df :=
    if has_column "unit_price" df
    then assign "unit_price" (to_numeric (column "unit_price" df)) df
    else df in
  df.

(** [s.fillna(v)] at one value. *)
Definition fillna (v c : cell) : cell := if isna c then v else c.

(** [s.astype(str)] at one value. *)
Definition astype_str (c : cell) : cell :=
  match c with
  | NaN => Str "nan"
  | Str s => Str s
  | Num x => Str (str_of_num x)
  | Bool b => Str (if b then "True" else "False")
  | Date t => Str (str_of_date t)
  end.

(** A [.str] method at one value: anything but a string gives NaN. *)
Definition str_method (f : string → string) (c : cell) : cell :=
  match c with Str s => Str (f s) | _ => NaN end.

(** [s.astype("float64")] at one value. *)
Definition astype_float64 (c : cell) : result cell :=
  match c with
  | NaN => Ok NaN
  | Num x => Ok (Num x)
  | Bool b => Ok (Num (if b then Q2Qc 1 else Q2Qc 0))
  | Str s => match float_of_str s with
             | Some x => Ok (of_float x)
             | None => Raise ValueError
             end
  | Date _ => Raise TypeError
  end.

Definition handle_missing_values (df : DataFrame) : result DataFrame :=
  let df :=
    if has_column "description" df
    then
      let df := assign "description"
                  (smap (fillna (Str "Unknown")) (column "description" df)) df in
      assign "description"
        (smap (λ c, str_method PyStr.strip (astype_str c))
              (column "description" df)) df
    else df in
  if has_column "customer_id" df
  then
    match traverse (λ lv, match astype_float64 lv.2 with
                          | Ok c => Ok (lv.1, c)
                          | Raise e => Raise e
                          end) (column "customer_id" df) with
    | Ok s => Ok (assign "customer_id" s df)
    | Raise e => Raise e
    end
  else Ok df.

Definition country_map : gmap string string :=
  list_to_map [("Uk", "United Kingdom");
               ("United Kingdom", "United Kingdom");
               ("Eire", "Ireland")].

(** [s.replace(mapping)] at one value: a value equal to a key becomes the
    key's value. *)
Definition replace (mapping : gmap string string) (c : cell) : cell :=
  match c with
  | Str s => match mapping !! s with Some v => Str v | None => Str s end
  | _ => c
  end.

(** What [normalize_categorical] does to one country value. *)
Definition normalize_country (c : cell) : cell :=
  replace country_map
    (str_method PyStr.title (str_method PyStr.strip (astype_str c))).

Definition normalize_categorical (df : DataFrame) : DataFrame :=
  let df :=
    if has_column "description" df
    then assign "description"
           (smap (λ c, str_method PyStr.strip (astype_str c))
                 (column "description" df)) df
    else df in
  let df :=
    if has_column "country" df
    then
      let df := assign "country"
                  (smap (λ c, str_method PyStr.title
                                (str_method PyStr.strip (astype_str c)))
                        (column "country" df)) df in
      assign "country" (smap (replace country_map) (column "country" df)) df
    else df in
  df.

(** [.dt.year] and [.dt.month] at one value. *)
Definition dt_year (c : cell) : cell :=
  match c with Date t => Num (Qc_of_Z (ts_year t)) | _ => NaN end.
Definition dt_month (c : cell) : cell :=
  match c with Date t => Num (Qc_of_Z (ts_month t)) | _ => NaN end.

Definition add_derived_columns (df : DataFrame) : DataFrame :=
  let df :=
    if has_column "quantity" df && has_column "unit_price" df
    then assign "total_value"
           (map (λ ir : nat * Row,
                   (ir.1, of_float (fmul (as_float (ir.2 !!! "quantity"))
                                         (as_float (ir.2 !!! "unit_price")))))
                (rows df)) df
    else df in
  let df :=
    if has_column "invoice_date" df
    then
      let df := assign "year" (smap dt_year (column "invoice_date" df)) df in
      assign "month" (smap dt_month (column "invoice_date" df)) df
    else df in
  df.

(** ** Summary tables *)

(** [monthly_revenue] when its columns are present. *)
Definition monthly_revenue_table (df : DataFrame) : DataFrame :=
  sort_values_asc ["year"; "month"]
    (groupby_sum ["year"; "month"] false "total_value" df).

(** [top_products] when its columns are present. *)
Definition top_products_table (df : DataFrame) : DataFrame :=
  let grouped := groupby_sum ["description"] true "total_value" df in
  {| columns := columns grouped;
     rows := take 10 (sort_values_desc "total_value" (rows grouped)) |}.

(** [df["customer_id"].nunique(dropna=True)] *)
Definition nunique (s : Series) : nat :=
  length (remove_dups (filter (λ c, isna c = false) s.*2)).

(** [float(order_values.mean()) if not order_values.empty else None] *)
Definition average_order_value (df : DataFrame) : cell :=
  let order_values := rows (groupby_sum ["invoice_no"] true "total_value" df) in
  match order_values with
  | [] => NaN
  | _ =>
      Num (sum_column "total_value" order_values.*2
           / Qc_of_nat (length order_values))%Qc
  end.

Definition metrics_table (df : DataFrame) : DataFrame :=
  let unique_customers :=
    if has_column "customer_id" df
    then Num (Qc_of_nat (nunique (column "customer_id" df)))
    else NaN in
  let avg_order_value :=
    if has_column "invoice_no" df && has_column "total_value" df
    then average_order_value df
    else NaN in
  {| columns := ["metric"; "value"];
     rows := [(0, {[ "metric" := Str "unique_customers";
                     "value" := unique_customers ]});
              (1, {[ "metric" := Str "average_order_value";
                     "value" := avg_order_value ]})] |}.

Definition create_summary_tables (df : DataFrame) : IO unit :=
  let* monthly_revenue :=
    if has_column "total_value" df && has_column "invoice_date" df
    then
      if has_column "year" df && has_column "month" df
      then
        let monthly_revenue := monthly_revenue_table df in
        to_csv monthly_revenue "revenue_by_month.csv" ;;
        ret monthly_revenue
      else lift (Raise KeyError)
    else ret empty_frame in
  let* top_products :=
    if has_column "total_value" df && has_column "description" df
    then
      let top_products := top_products_table df in
      to_csv top_products "top10_products_by_sales.csv" ;;
      ret top_products
    else ret empty_frame in
  to_csv (metrics_table df) "overall_metrics.csv" ;;
  when (negb (is_empty monthly_revenue))
       (emit (SaveFig "figures/monthly_revenue.png")) ;;
  when (negb (is_empty top_products))
       (emit (SaveFig "figures/top10_products_by_sales.png")) ;;
  when (has_column "quantity" df)
       (emit (SaveFig "figures/quantity_distribution.png")).

(** ** The pipeline *)

(** The stages between reading and writing [retail_cleaned.csv]. *)
Definition clean (df : DataFrame) (remove_outliers : bool) : IO DataFrame :=
  let df := convert_dtypes df in
  let df := drop_invalid_invoices df in
  let* df := lift (handle_missing_values df) in
  let df := normalize_categorical df in
  let df := add_derived_columns df in
  let* df := deduplicate_and_log df in
  flag_and_optionally_remove_outliers df remove_outliers.

(** [clean_and_analyze], from the table that [read_csv] and
    [standardize_column_names] return. *)
Definition clean_and_analyze (df : DataFrame) (remove_outliers : bool)
  : IO unit :=
  let* df := clean df remove_outliers in
  to_csv df "retail_cleaned.csv" ;;
  create_summary_tables df.

End Pipeline.

(** [read_csv]: the records of the file in order, numbered from 0. *)
Definition read_csv (header : list string) (records : list Row) : DataFrame :=
  {| columns := header; rows := imap (λ i r, (i, r)) records |}.

(** The files a run has written: name and data rows of each [to_csv]. *)
Definition csv_written (tr : list event) : list (string * list Row) :=
  omap (λ e, match e with
             | ToCsv path _ body => Some (path, body)
             | SaveFig _ => None
             end) tr.

(** [a] may come before [b] when the rows are arranged by the number in
    column [by_], largest first, NaN last. *)
Definition descending (by_ : string) (a b : nat * Row) : Prop :=
  match as_float (a.2 !!! by_), as_float (b.2 !!! by_) with
  | Some x, Some y => (y ≤ x)%Qc
  | _, None => True
  | None, Some _ => False
  end.
#[global] Instance descending_decision by_ : RelDecision (descending by_).
Proof. intros a b. unfold descending. repeat case_match; apply _. Defined.


(** ** Sample instances of the parameters

    Small parsers, printers and sorters with which the pipeline can be run
    on concrete tables: plain decimal numbers, dates written [YYYY-MM-DD]. *)

Module Sample.

Definition digit (c : ascii) : option Z :=
  let n := Z.of_N (N_of_ascii c) in
  if ((48 <=? n) && (n <=? 57))%Z then Some (n - 48)%Z else None.

Fixpoint digits_from (acc : Z) (s : string) : option Z :=
  match s with
  | EmptyString => Some acc
  | String c s' =>
      match digit c with
      | Some d => digits_from (10 * acc + d)%Z s'
      | None => None
      end
  end.

(** A non-empty run of decimal digits. *)
Definition parse_digits (s : string) : option Z :=
  match s with EmptyString => None | _ => digits_from 0 s end.

Fixpoint split_dot (s : string) : string * option string :=
  match s with
  | EmptyString => (EmptyString, None)
  | String c s' =>
      if Ascii.eqb c "."%char then (EmptyString, Some s')
      else let '(a, b) := split_dot s' in (String c a, b)
  end.

Definition parse_unsigned (s : string) : option Qc :=
  match split_dot s with
  | (a, None) => (λ n, Qc_of_Z n) <$> parse_digits a
  | (a, Some b) =>
      match parse_digits a, parse_digits b with
      | Some n, Some m =>
          let scale := (10 ^ Z.of_nat (String.length b))%Z in
          Some (Q2Qc (Qmake (n * scale + m) (Z.to_pos scale)))
      | _, _ => None
      end
  end.

(** [-12], [3.50], [17]; nothing else. *)
Definition parse_decimal (s : string) : option Qc :=
  match s with
  | String "-"%char s' => (λ x, (- x)%Qc) <$> parse_unsigned s'
  | _ => parse_unsigned s
  end.

Definition parse_numeric (c : cell) : option Qc :=
  match c with
  | Num x => Some x
  | Str s => parse_decimal (PyStr.strip s)
  | Bool b => Some (if b then Q2Qc 1 else Q2Qc 0)
  | _ => None
  end.

Definition float_of_str (s : string) : option float :=
  if decide (PyStr.strip s = "nan") then Some None
  else Some <$> parse_decimal (PyStr.strip s).

(** [YYYY-MM-DD] with a month in 1..12 and a day in 1..31. *)
Definition parse_date (s : string) : option Timestamp :=
  match parse_digits (substring 0 4 s), parse_digits (substring 5 2 s),
        parse_digits (substring 8 2 s) with
  | Some y, Some m, Some d =>
      if decide (String.length s = 10%nat
                 ∧ substring 4 1 s = "-" ∧ substring 7 1 s = "-"
                 ∧ (1 ≤ m ≤ 12)%Z ∧ (1 ≤ d ≤ 31)%Z)
      then Some {| ts_year := y; ts_month := m; ts_day := d; ts_nanos := 0 |}
      else None
  | _, _, _ => None
  end.

Definition parse_datetime (_ : list cell) (c : cell) : option Timestamp :=
  match c with
  | Date t => Some t
  | Str s => parse_date (PyStr.strip s)
  | _ => None
  end.

(** Integers print as [5.0]; other rationals as a fraction. *)
Definition str_of_num (x : Qc) : string :=
  if decide (Qden x = 1%positive)
  then pretty (Qnum x) +:+ ".0"
  else pretty (Qnum x) +:+ "/" +:+ pretty (Zpos (Qden x)).

Definition str_of_date (t : Timestamp) : string :=
  pretty (ts_year t) +:+ "-" +:+ pretty (ts_month t) +:+ "-"
  +:+ pretty (ts_day t).

(** A sorter that keeps tied rows in their incoming order. *)
Definition sort_values_desc (by_ : string) (l : list (nat * Row))
  : list (nat * Row) :=
  merge_sort (descending by_) l.


Definition run (df : DataFrame) (remove_outliers : bool)
  : result unit * list event :=
  clean_and_analyze parse_datetime parse_numeric float_of_str
    str_of_num str_of_date sort_values_desc df remove_outliers [].

End Sample.

(** * Notions used in the statements *)

(** [triple I m Q]: run from a trace whose events all satisfy [I], the
    computation [m] leaves such a trace, and a value it returns satisfies
    [Q]. *)
Definition triple {A} (I : event → Prop) (m : IO A) (Q : A → Prop) : Prop :=
  ∀ tr, Forall I tr → Forall I (m tr).2 ∧ ∀ a, (m tr).1 = Ok a → Q a.

(** The row property [P] survives an assignment to any of [names]. *)
Definition stable (P : Row → Prop) (names : list string) : Prop :=
  ∀ name v r, name ∈ names → P r → P (<[name := v]> r).

(** A property of tables kept by row selection and by the assignment of
    the two flag columns. *)
Definition flag_closed (T : DataFrame → Prop) : Prop :=
  (∀ mask d, T d → T (select mask d))
  ∧ (∀ name s d,
       name ∈ ["is_outlier_quantity"; "is_outlier_unit_price"] →
       T d → T (assign name s d)).

(** The two assignments of [flag_and_optionally_remove_outliers], with the
    list of flag columns they build. *)
Definition flag_columns (df : DataFrame) : DataFrame * list string :=
  let '(df, outlier_cols) :=
    if has_column "quantity" df
    then (assign "is_outlier_quantity" (outlier_flags "quantity" df) df,
          ["is_outlier_quantity"])
    else (df, []) in
  if has_column "unit_price" df
  then (assign "is_outlier_unit_price" (outlier_flags "unit_price" df) df,
        outlier_cols ++ ["is_outlier_unit_price"])
  else (df, outlier_cols).

(** The row is not missing its invoice number or date, as far as the
    table has these columns. *)
Definition valid_invoice (df : DataFrame) (r : Row) : Prop :=
  (has_column "invoice_no" df = true → isna (r !!! "invoice_no") = false)
  ∧ (has_column "invoice_date" df = true → isna (r !!! "invoice_date") = false).

#[global] Instance valid_invoice_decision df r : Decision (valid_invoice df r).
Proof. unfold valid_invoice. apply _. Defined.

(** How many rows of [l] equal [r]. *)
Definition occurrences (r : Row) (l : list Row) : nat :=
  length (filter (λ r', r' = r) l).

(** The rows kept when the contents in [seen] have occurred before. *)
Definition keep_first (seen : list Row) (l : list (nat * Row))
  : list (nat * Row) :=
  boolean_index (map negb (duplicated_from seen l.*2)) l.

(** What one entry of the mask becomes when the entries of [mask] are
    written one after the other. *)
Definition written (mask : list (nat * bool)) (e : nat * bool) : nat * bool :=
  foldl (λ e lb, if decide (e.1 = lb.1) then (e.1, lb.2) else e) e mask.

(** The bounds of the interquartile rule, from the values considered. *)
Definition iqr_bounds (values : list Qc) : float * float :=
  let sorted := merge_sort Qcle values in
  let q1 := interpolate sorted one_quarter in
  let q3 := interpolate sorted three_quarters in
  let iqr := fsub q3 q1 in
  (fsub q1 (fmul (Some one_and_a_half) iqr),
   fadd q3 (fmul (Some one_and_a_half) iqr)).

(** The value is a number below the lower or above the upper bound. *)
Definition outside (bounds : float * float) (c : cell) : bool :=
  flt (as_float c) bounds.1 || flt bounds.2 (as_float c).

(** The numbers in a column of a table. *)
Definition column_values (name : string) (df : DataFrame) : list Qc :=
  omap (λ r : Row, as_float (r !!! name)) (rows df).*2.

(** A row with its flags. *)
Definition flag_row (df : DataFrame) (r : Row) : Row :=
  let r :=
    if has_column "quantity" df
    then <["is_outlier_quantity" :=
             Bool (outside (iqr_bounds (column_values "quantity" df))
                           (r !!! "quantity"))]> r
    else r in
  if has_column "unit_price" df
  then <["is_outlier_unit_price" :=
           Bool (outside (iqr_bounds (column_values "unit_price" df))
                         (r !!! "unit_price"))]> r
  else r.

(** Some flag of the row is set. *)
Definition flagged (cols : list string) (r : Row) : bool :=
  existsb (λ c, truthy (r !!! c)) cols.

(** The table with the nine quantities of the worked example. *)
Definition nine_quantities : DataFrame :=
  read_csv ["quantity"]
    (map (λ z, {[ "quantity" := Num (Qc_of_Z z) ]} : Row)
         [1; 2; 2; 3; 3; 3; 4; 4; 100]%Z).





(** [returns m Q]: from any trace, [m] raises nothing and only adds events
    to the trace; its value and the events added satisfy [Q]. *)
Definition returns {A} (m : IO A) (Q : A → list event → Prop) : Prop :=
  ∀ tr, ∃ a es, m tr = (Ok a, tr ++ es) ∧ Q a es.

(** A table of which the only row has no invoice number. *)
Definition no_valid_rows : DataFrame :=
  read_csv ["invoice_no"; "invoice_date"; "description"; "quantity";
            "unit_price"]
    [ {[ "invoice_no" := NaN; "invoice_date" := Str "2011-01-05";
         "description" := Str "mug"; "quantity" := Str "1";
         "unit_price" := Str "2.50" ]} ].

Section CoercionNotions.

Context (parse_datetime : list cell → cell → option Timestamp)
        (parse_numeric : cell → option Qc).

(** What coercion makes of a date and of a number. *)
Definition coerce_date (series : list cell) (c : cell) : cell :=
  match parse_datetime series c with Some t => Date t | None => NaN end.

Definition coerce_number (c : cell) : cell := of_float (parse_numeric c).

(** A row after coercion, in a table [df]. *)
Definition convert_row (df : DataFrame) (r : Row) : Row :=
  let r :=
    if has_column "invoice_date" df
    then <["invoice_date" :=
             coerce_date (column "invoice_date" df).*2 (r !!! "invoice_date")]> r
    else r in
  let r :=
    if has_column "quantity" df
    then <["quantity" := coerce_number (r !!! "quantity")]> r
    else r in
  if has_column "unit_price" df
  then <["unit_price" := coerce_number (r !!! "unit_price")]> r
  else r.

End CoercionNotions.

(** The table has [year] and [month] when it has the columns of the
    monthly revenue. *)
Definition has_year_month (d : DataFrame) : Prop :=
  has_column "total_value" d && has_column "invoice_date" d = true →
  has_column "year" d && has_column "month" d = true.

(** The cast of the customer identifier of the row does not raise. *)
Definition customer_converts (float_of_str : string → option float) (r : Row)
  : Prop :=
  ∃ c, astype_float64 float_of_str (r !!! "customer_id") = Ok c.

(** A row whose date does not parse, and a row whose customer identifier is
    not a number. *)
Definition bad_date : DataFrame :=
  read_csv ["invoice_no"; "invoice_date"; "quantity"]
    [ {[ "invoice_no" := Str "A1"; "invoice_date" := Str "not a date";
         "quantity" := Str "3" ]} ].

Definition bad_customer : DataFrame :=
  read_csv ["invoice_no"; "invoice_date"; "customer_id"]
    [ {[ "invoice_no" := Str "A1"; "invoice_date" := Str "2011-01-05";
         "customer_id" := Str "abc" ]} ].

(** A property of tables kept by every selection and assignment. *)
Definition table_closed (T : DataFrame → Prop) : Prop :=
  (∀ mask d, T d → T (select mask d))
  ∧ (∀ name s d, T d → T (assign name s d)).

(** The nine quantities in the opposite order. *)
Definition nine_quantities_reversed : DataFrame :=
  {| columns := columns nine_quantities;
     rows := reverse (rows nine_quantities) |}.


(** ** Column names: [standardize_column_names]

    The function only renames columns, so it is modelled by what it does to
    the header, the list of column names in order. *)

(** A string method that works character by character. *)
Fixpoint map_chars (f : ascii → ascii) (s : string) : string :=
  match s with
  | String c s' => String (f c) (map_chars f s')
  | EmptyString => EmptyString
  end.

(** [s.lower()] *)
Definition str_lower (s : string) : string := map_chars PyStr.lower s.

(** [s.replace(old, new)] for strings of one character. *)
Definition replace_char (old new : ascii) (s : string) : string :=
  map_chars (λ c, if Ascii.eqb c old then new else c) s.

(** [c.strip().lower().replace(" ", "_")], then [.replace("-", "_")]. *)
Definition normalized (c : string) : string :=
  let normalized := replace_char " " "_" (str_lower (PyStr.strip c)) in
  replace_char "-" "_" normalized.

(** [df.rename(columns=mapping)] on the header: a name that is a key of the
    mapping is replaced by its value. *)
Definition rename (mapping : gmap string string) (cols : list string)
  : list string :=
  map (λ c, default c (mapping !! c)) cols.

(** The canonical names with their candidates, in the order of the code. *)
Definition candidates : list (string * list string) :=
  [ ("invoice_no", ["invoiceno"; "invoice_no"; "invoice_number"]);
    ("invoice_date", ["invoicedate"; "invoice_date"; "date"]);
    ("stock_code", ["stockcode"; "stock_code"; "product_code"]);
    ("description",
     ["description"; "product_description"; "item_description"]);
    ("quantity", ["quantity"; "qty"]);
    ("unit_price", ["unitprice"; "unit_price"; "price"]);
    ("customer_id", ["customerid"; "customer_id"; "cust_id"]);
    ("country", ["country"; "market"]) ].

(** One loop [for candidate in names: if candidate in cols_lower: ...;
    break]: the first candidate that is a key of [cols_lower] gets the
    column it stands for renamed. *)
Definition add_rename (cols_lower : gmap string string)
    (rename_map : gmap string string) (target : string * list string)
  : gmap string string :=
  match head (filter (λ candidate, is_Some (cols_lower !! candidate)) target.2)
  with
  | Some candidate => <[cols_lower !!! candidate := target.1]> rename_map
  | None => rename_map
  end.

(** The two renamings.  [col_map] and [cols_lower] are dictionaries filled
    in the order of the header, a later column overwriting an earlier one
    with the same key. *)
Definition standardize_column_names (cols : list string) : list string :=
  let col_map := foldl (λ m c, <[c := normalized c]> m) ∅ cols in
  let cols := rename col_map cols in
  let cols_lower := foldl (λ m c, <[str_lower c := c]> m) ∅ cols in
  let rename_map := foldl (add_rename cols_lower) ∅ candidates in
  rename rename_map cols.

(** ** Notions for the further properties *)

(** The first of [names] that occurs in the header. *)
Definition first_present (header names : list string) : option string :=
  head (filter (λ name, name ∈ header) names).

(** What the three character steps of [normalized] do to one character. *)
Definition normalized_char (c : ascii) : ascii :=
  let c := PyStr.lower c in
  let c := if Ascii.eqb c " " then "_"%char else c in
  if Ascii.eqb c "-" then "_"%char else c.

(** A header whose names are in lower case. *)
Definition lowered (header : list string) : Prop :=
  Forall (λ c, str_lower c = c) header.

(** The renaming of the second step, for a header in lower case. *)
Definition renaming (header : list string) : gmap string string :=
  foldl (λ m (target : string * list string),
           match first_present header target.2 with
           | Some candidate => <[candidate := target.1]> m
           | None => m
           end) ∅ candidates.

(** What [normalize_categorical] does to one row. *)
Definition normalize_row (str_of_num : Qc → string)
    (str_of_date : Timestamp → string) (df : DataFrame) (r : Row) : Row :=
  let r :=
    if has_column "description" df
    then <["description" :=
             str_method PyStr.strip
               (astype_str str_of_num str_of_date (r !!! "description"))]> r
    else r in
  if has_column "country" df
  then <["country" :=
           normalize_country str_of_num str_of_date (r !!! "country")]> r
  else r.

(** What [lstrip] returns does not start with a space. *)
Definition starts_unspaced (s : string) : Prop :=
  match s with
  | String c _ => PyStr.isspace c = false
  | EmptyString => True
  end.





(** A table with every canonical column, one value of each kind. *)
Definition three_orders : DataFrame :=
  read_csv ["invoice_no"; "invoice_date"; "description"; "quantity";
            "unit_price"; "customer_id"; "country"]
    [ {[ "invoice_no" := Str "A1"; "invoice_date" := Str "2011-01-05";
         "description" := Str " mug "; "quantity" := Str "2";
         "unit_price" := Str "2.50"; "customer_id" := Str "17850";
         "country" := Str "UK" ]};
      {[ "invoice_no" := Str "A2"; "invoice_date" := Str "2011-02-07";
         "description" := NaN; "quantity" := Str "many";
         "unit_price" := Str "1.25"; "customer_id" := NaN;
         "country" := Str "eire" ]};
      {[ "invoice_no" := Str "A3"; "invoice_date" := Str "soon";
         "description" := Str "plate"; "quantity" := Str "1";
         "unit_price" := Str "4"; "customer_id" := Str "13047";
         "country" := Str "France" ]} ].











(** Neither flag of the row is set, as far as the table has the columns
    that are flagged. *)
Definition unflagged_row (df : DataFrame) (r : Row) : Prop :=
  (has_column "quantity" df = true → r !!! "is_outlier_quantity" = Bool false)
  ∧ (has_column "unit_price" df = true →
     r !!! "is_outlier_unit_price" = Bool false).

(** What [handle_missing_values] makes of a description. *)
Definition description_policy (str_of_num : Qc → string)
    (str_of_date : Timestamp → string) (c : cell) : cell :=
  str_method PyStr.strip
    (astype_str str_of_num str_of_date (fillna (Str "Unknown") c)).

(** [df[name] = ...] on the header: a new name goes to the end. *)
Definition add_column (name : string) (cols : list string) : list string :=
  if bool_decide (name ∈ cols) then cols else cols ++ [name].

(** The header of the cleaned table, from the header of the table read:
    the derived columns and the flag columns that apply, each added at the
    end unless the table read has a column of that name. *)
Definition cleaned_header (cols : list string) : list string :=
  let has c := bool_decide (c ∈ cols) in
  let cols :=
    if has "quantity" && has "unit_price"
    then add_column "total_value" cols else cols in
  let cols :=
    if has "invoice_date"
    then add_column "month" (add_column "year" cols) else cols in
  let cols :=
    if has "quantity" then add_column "is_outlier_quantity" cols else cols in
  if has "unit_price" then add_column "is_outlier_unit_price" cols else cols.

(** * Properties *)

(** ** Tables *)

Section TableFacts.

Implicit Types (df : DataFrame) (name : string) (s : Series).

Lemma boolean_index_map {A} (p : A → bool) (l : list A) :
  boolean_index (map p l) l = filter (λ x, p x = true) l.
Proof.
  induction l as [|x l IH]; [done|]. simpl. rewrite IH.
  destruct (p x) eqn:E.
  - by rewrite filter_cons_True.
  - rewrite filter_cons_False; [done|]. by rewrite E.
Qed.

Lemma boolean_index_sublist {A} (mask : list bool) (l : list A) :
  sublist (boolean_index mask l) l.
Proof.
  revert mask. induction l as [|x l IH]; intros [|[] mask]; simpl;
    try constructor; auto using sublist_nil_l.
Qed.

Lemma Forall_sublist {A} (P : A → Prop) (l1 l2 : list A) :
  sublist l1 l2 → Forall P l2 → Forall P l1.
Proof.
  induction 1 as [| |x l1 l2 Hs IH]; intros HF; [done| |];
    inversion HF; subst; auto.
Qed.

Lemma select_sublist mask df : sublist (rows (select mask df)) (rows df).
Proof. apply boolean_index_sublist. Qed.

Lemma select_Forall (P : nat * Row → Prop) mask df :
  Forall P (rows df) → Forall P (rows (select mask df)).
Proof. intros H. eapply Forall_sublist; [apply select_sublist|done]. Qed.

Lemma columns_select mask df : columns (select mask df) = columns df.
Proof. done. Qed.

Lemma zip_with_self {A B C} (f : A → C → B) (g : A → C) (l : list A) :
  zip_with f l (map g l) = map (λ x, f x (g x)) l.
Proof. induction l; simpl; congruence. Qed.

(** Assigning a column computed row by row. *)
Lemma assign_rows_map name (f : nat * Row → cell) df :
  rows (assign name (map (λ ir, (ir.1, f ir)) (rows df)) df)
  = map (λ ir, (ir.1, <[name := f ir]> ir.2)) (rows df).
Proof. unfold assign. simpl. by rewrite zip_with_self. Qed.

Lemma smap_column (f : cell → cell) name df :
  smap f (column name df) = map (λ ir, (ir.1, f (ir.2 !!! name))) (rows df).
Proof. unfold smap, column. by rewrite map_map. Qed.

Lemma assign_smap_rows name name' (f : cell → cell) df :
  rows (assign name (smap f (column name' df)) df)
  = map (λ ir, (ir.1, <[name := f (ir.2 !!! name')]> ir.2)) (rows df).
Proof.
  rewrite smap_column.
  apply (assign_rows_map name (λ ir, f (ir.2 !!! name'))).
Qed.

Lemma assign_Forall (P : Row → Prop) name s df :
  (∀ r v, P r → P (<[name := v]> r)) →
  Forall (λ ir, P ir.2) (rows df) →
  Forall (λ ir, P ir.2) (rows (assign name s df)).
Proof.
  intros HP. unfold assign. simpl. generalize (rows df). intros l.
  revert s. induction l as [|x l IH]; intros [|y s] H; simpl;
    [constructor..|].
  inversion H; subst. constructor; simpl; auto.
Qed.

Lemma has_column_assign name name' s df :
  has_column name' (assign name s df)
  = has_column name' df || bool_decide (name' = name).
Proof.
  unfold has_column at 1. unfold assign. simpl.
  destruct (has_column name df) eqn:E.
  - unfold has_column in *. apply bool_decide_eq_true in E.
    destruct (bool_decide (name' = name)) eqn:E'.
    + apply bool_decide_eq_true in E'. subst.
      rewrite orb_true_r. by apply bool_decide_eq_true.
    + by rewrite orb_false_r.
  - unfold has_column.
    rewrite (bool_decide_ext _ (name' ∈ columns df ∨ name' = name)).
    + by rewrite bool_decide_or.
    + rewrite elem_of_app, list_elem_of_singleton. done.
Qed.

Lemma has_column_assign_same name s df :
  has_column name df = true → columns (assign name s df) = columns df.
Proof. intros H. unfold assign. simpl. by rewrite H. Qed.

End TableFacts.

(** ** Reasoning about effects *)

Section Triples.

Context {A B : Type} (I : event → Prop).

Lemma triple_ret (a : A) (Q : A → Prop) : Q a → triple I (ret a) Q.
Proof. intros H tr Htr. split; [done|]. simpl. by intros ? [= <-]. Qed.

Lemma triple_lift (r : result A) (Q : A → Prop) :
  (∀ a, r = Ok a → Q a) → triple I (lift r) Q.
Proof. intros H tr Htr. split; [done|]. simpl. auto. Qed.

Lemma triple_emit (e : event) : I e → triple I (emit e) (λ _, True).
Proof.
  intros H tr Htr. split; [|done]. simpl.
  apply Forall_app. split; [done|]. by constructor.
Qed.

Lemma triple_bind (m : IO A) (k : A → IO B) (Q : A → Prop) (R : B → Prop) :
  triple I m Q → (∀ a, Q a → triple I (k a) R) → triple I (bind m k) R.
Proof.
  intros Hm Hk tr Htr. unfold bind.
  destruct (Hm tr Htr) as [H1 H2].
  destruct (m tr) as [[a|e] tr'] eqn:E; simpl in *.
  - apply (Hk a); auto.
  - split; [done|]. by intros.
Qed.

Lemma triple_weaken (m : IO A) (Q Q' : A → Prop) :
  triple I m Q → (∀ a, Q a → Q' a) → triple I m Q'.
Proof. intros H HQ tr Htr. destruct (H tr Htr). split; auto. Qed.

End Triples.

Lemma triple_when (I : event → Prop) (b : bool) (m : IO unit) :
  (b = true → triple I m (λ _, True)) → triple I (when b m) (λ _, True).
Proof. destruct b; simpl; intros H; [auto|]. by apply triple_ret. Qed.

Lemma triple_to_csv (I : event → Prop) (df : DataFrame) (name : string) :
  I (ToCsv name (columns df) (rows df).*2) →
  triple I (to_csv df name) (λ _, True).
Proof. apply triple_emit. Qed.

(** ** The stages, one by one *)

(** Membership and non-membership in a list of column names. *)
Ltac in_names := rewrite ?elem_of_cons; auto 10.
Ltac not_in_names :=
  rewrite ?not_elem_of_cons; repeat split; try done; apply not_elem_of_nil.

Lemma stable_weaken (P : Row → Prop) (names names' : list string) :
  names' ⊆ names → stable P names → stable P names'.
Proof. intros Hsub H name v r Hin. apply H. by apply Hsub. Qed.

Lemma flag_closed_rows (P : Row → Prop) :
  stable P ["is_outlier_quantity"; "is_outlier_unit_price"] →
  flag_closed (λ d, Forall (λ ir, P ir.2) (rows d)).
Proof.
  intros HP. split.
  - intros mask d. apply select_Forall.
  - intros name s d Hin. apply assign_Forall. intros r v. by apply HP.
Qed.

Lemma is_empty_rows (df : DataFrame) :
  negb (is_empty df) = true → rows df ≠ [].
Proof. unfold is_empty. destruct (columns df), (rows df); done. Qed.

Lemma flag_and_optionally_remove_outliers_eq (df : DataFrame) (remove : bool) :
  flag_and_optionally_remove_outliers df remove
  = match (flag_columns df).2 with
    | [] => ret (flag_columns df).1
    | _ =>
        let df1 := (flag_columns df).1 in
        let mask := any_axis1 (flag_columns df).2 df1 in
        bind (when (negb (is_empty (select mask df1)))
                   (to_csv (select mask df1) "outliers_logged.csv"))
             (λ _, ret (if remove then select (map negb mask) df1 else df1))
    end.
Proof.
  unfold flag_and_optionally_remove_outliers, flag_columns.
  destruct (has_column "quantity" df); simpl;
    match goal with |- context [has_column "unit_price" ?d] =>
      destruct (has_column "unit_price" d) end; reflexivity.
Qed.

Lemma flag_columns_closed (T : DataFrame → Prop) (df : DataFrame) :
  flag_closed T → T df → T (flag_columns df).1.
Proof.
  intros [_ Hassign] HT. unfold flag_columns.
  destruct (has_column "quantity" df); simpl;
    match goal with |- context [has_column "unit_price" ?d] =>
      destruct (has_column "unit_price" d) end; simpl;
    repeat (apply Hassign; [in_names|]); done.
Qed.

Section StageTriples.

Context (I : event → Prop).
Hypothesis I_duplicates :
  ∀ header body, body ≠ [] → I (ToCsv "duplicates_logged.csv" header body).
Hypothesis I_outliers :
  ∀ header body, body ≠ [] → I (ToCsv "outliers_logged.csv" header body).

Lemma fmap_snd_nonempty (l : list (nat * Row)) : l ≠ [] → l.*2 ≠ [].
Proof. by destruct l. Qed.

Lemma triple_deduplicate_and_log (df : DataFrame) (Q : DataFrame → Prop) :
  Q (drop_duplicates df) → triple I (deduplicate_and_log df) Q.
Proof.
  intros HQ. unfold deduplicate_and_log.
  eapply triple_bind; [|intros _ _; by apply triple_ret].
  apply triple_when. intros Hne. apply triple_to_csv.
  apply I_duplicates, fmap_snd_nonempty. by apply is_empty_rows.
Qed.

Lemma triple_flag (df : DataFrame) (remove : bool) (T : DataFrame → Prop) :
  flag_closed T → T df →
  triple I (flag_and_optionally_remove_outliers df remove) T.
Proof.
  intros Hclosed HT. rewrite flag_and_optionally_remove_outliers_eq.
  pose proof (flag_columns_closed T df Hclosed HT) as H1.
  destruct (flag_columns df).2; [by apply triple_ret|].
  cbv zeta. eapply triple_bind.
  - apply triple_when. intros Hne. apply triple_to_csv.
    apply I_outliers, fmap_snd_nonempty. by apply is_empty_rows.
  - intros _ _. apply triple_ret. destruct remove; [|done].
    by apply Hclosed.
Qed.

End StageTriples.

(** ** The validity filter *)

Lemma filter_all {A} (P : A → Prop) `{∀ x, Decision (P x)} (l : list A) :
  (∀ x, P x) → filter P l = l.
Proof.
  intros HP. induction l as [|x l IH]; [done|].
  rewrite filter_cons_True by done. by rewrite IH.
Qed.

Lemma drop_invalid_invoices_rows (df : DataFrame) :
  rows (drop_invalid_invoices df)
  = filter (λ ir, valid_invoice df ir.2) (rows df).
Proof.
  unfold drop_invalid_invoices.
  destruct (has_column "invoice_no" df) eqn:E1,
           (has_column "invoice_date" df) eqn:E2; simpl;
    [rewrite boolean_index_map; apply list_filter_iff; intros [i r];
     unfold valid_invoice; rewrite E1, E2; simpl;
     rewrite ?andb_true_iff, !negb_true_iff; intuition congruence..|].
  symmetry. apply filter_all. intros [i r]. unfold valid_invoice.
  rewrite E1, E2. intuition congruence.
Qed.

Lemma columns_drop_invalid_invoices (df : DataFrame) :
  columns (drop_invalid_invoices df) = columns df.
Proof.
  unfold drop_invalid_invoices.
  by destruct (has_column "invoice_no" df), (has_column "invoice_date" df).
Qed.

Lemma drop_invalid_invoices_absent (df : DataFrame) :
  has_column "invoice_no" df = false → has_column "invoice_date" df = false →
  drop_invalid_invoices df = df.
Proof. intros H1 H2. unfold drop_invalid_invoices. by rewrite H1, H2. Qed.

(** A property of the value in column [c] survives assignments to other
    columns. *)
Lemma stable_on_column (Q : cell → Prop) (c : string) (names : list string) :
  c ∉ names → stable (λ r : Row, Q (r !!! c)) names.
Proof.
  intros Hc name v r Hin Hr.
  rewrite lookup_total_insert_ne; [done|]. by intros ->.
Qed.

Section Stages.

Context (parse_datetime : list cell → cell → option Timestamp)
        (parse_numeric : cell → option Qc)
        (float_of_str : string → option float)
        (str_of_num : Qc → string)
        (str_of_date : Timestamp → string)
        (sort_values_desc : string → list (nat * Row) → list (nat * Row)).

Abbreviation convert_dtypes' := (convert_dtypes parse_datetime parse_numeric).
Abbreviation handle_missing_values' :=
  (handle_missing_values float_of_str str_of_num str_of_date).
Abbreviation normalize_categorical' :=
  (normalize_categorical str_of_num str_of_date).
Abbreviation clean' :=
  (clean parse_datetime parse_numeric float_of_str str_of_num str_of_date).

Lemma columns_convert_dtypes (df : DataFrame) :
  columns (convert_dtypes' df) = columns df.
Proof.
  unfold convert_dtypes.
  repeat match goal with
         | |- context [if has_column ?c ?d then _ else _] =>
             let E := fresh "E" in
             destruct (has_column c d) eqn:E;
             [rewrite (has_column_assign_same c _ d E)|]
         end; done.
Qed.

Lemma has_column_convert_dtypes (c : string) (df : DataFrame) :
  has_column c (convert_dtypes' df) = has_column c df.
Proof. unfold has_column. by rewrite columns_convert_dtypes. Qed.

Lemma handle_missing_values_Forall (P : Row → Prop) (df df' : DataFrame) :
  stable P ["description"; "customer_id"] →
  handle_missing_values' df = Ok df' →
  Forall (λ ir, P ir.2) (rows df) → Forall (λ ir, P ir.2) (rows df').
Proof.
  intros HP Heq H. unfold handle_missing_values in Heq.
  assert (∀ name s d, name ∈ ["description"; "customer_id"] →
            Forall (λ ir, P ir.2) (rows d) →
            Forall (λ ir, P ir.2) (rows (assign name s d))) as Hassign.
  { intros name s d Hin. apply assign_Forall. intros r v. by apply HP. }
  destruct (has_column "description" df);
    match type of Heq with context [has_column "customer_id" ?d] =>
      destruct (has_column "customer_id" d) end;
    repeat case_match; simplify_eq;
    repeat (apply Hassign; [in_names|]); done.
Qed.

Lemma normalize_categorical_Forall (P : Row → Prop) (df : DataFrame) :
  stable P ["description"; "country"] →
  Forall (λ ir, P ir.2) (rows df) →
  Forall (λ ir, P ir.2) (rows (normalize_categorical' df)).
Proof.
  intros HP H. unfold normalize_categorical.
  assert (∀ name s d, name ∈ ["description"; "country"] →
            Forall (λ ir, P ir.2) (rows d) →
            Forall (λ ir, P ir.2) (rows (assign name s d))) as Hassign.
  { intros name s d Hin. apply assign_Forall. intros r v. by apply HP. }
  destruct (has_column "description" df);
    match goal with |- context [has_column "country" ?d] =>
      destruct (has_column "country" d) end;
    repeat (apply Hassign; [in_names|]); done.
Qed.

Lemma add_derived_columns_Forall (P : Row → Prop) (df : DataFrame) :
  stable P ["total_value"; "year"; "month"] →
  Forall (λ ir, P ir.2) (rows df) →
  Forall (λ ir, P ir.2) (rows (add_derived_columns df)).
Proof.
  intros HP H. unfold add_derived_columns.
  assert (∀ name s d, name ∈ ["total_value"; "year"; "month"] →
            Forall (λ ir, P ir.2) (rows d) →
            Forall (λ ir, P ir.2) (rows (assign name s d))) as Hassign.
  { intros name s d Hin. apply assign_Forall. intros r v. by apply HP. }
  destruct (has_column "quantity" df && has_column "unit_price" df);
    match goal with |- context [has_column "invoice_date" ?d] =>
      destruct (has_column "invoice_date" d) end;
    repeat (apply Hassign; [in_names|]); done.
Qed.

(** What holds of the table [clean'] returns: a property established once
    the derived columns are added, and kept by selection and flagging. *)
Lemma triple_clean (I : event → Prop) (T : DataFrame → Prop)
    (df : DataFrame) (remove_outliers : bool) :
  (∀ header body, body ≠ [] → I (ToCsv "duplicates_logged.csv" header body)) →
  (∀ header body, body ≠ [] → I (ToCsv "outliers_logged.csv" header body)) →
  flag_closed T →
  (∀ df1,
     handle_missing_values' (drop_invalid_invoices (convert_dtypes' df)) = Ok df1 →
     T (add_derived_columns (normalize_categorical' df1))) →
  triple I (clean' df remove_outliers) T.
Proof.
  intros Hdup Hout Hclosed HT. unfold clean.
  eapply (triple_bind I _ _
            (λ df1, handle_missing_values'
                      (drop_invalid_invoices (convert_dtypes' df)) = Ok df1));
    [apply triple_lift; auto|].
  intros df1 Hdf1.
  eapply triple_bind.
  - apply (triple_deduplicate_and_log I Hdup _
             (λ d, d = drop_duplicates
                       (add_derived_columns (normalize_categorical' df1)))).
    reflexivity.
  - intros d ->. apply (triple_flag I Hout); [done|].
    apply Hclosed. by apply HT.
Qed.

End Stages.

Lemma valid_invoice_stable (df : DataFrame) (names : list string) :
  "invoice_no" ∉ names → "invoice_date" ∉ names →
  stable (valid_invoice df) names.
Proof.
  intros H1 H2 name v r Hin [Hno Hdate]. split; intros Hc.
  - rewrite lookup_total_insert_ne; [auto|]. by intros ->.
  - rewrite lookup_total_insert_ne; [auto|]. by intros ->.
Qed.

Lemma drop_invalid_invoices_valid (df : DataFrame) :
  Forall (λ ir, valid_invoice df ir.2) (rows (drop_invalid_invoices df)).
Proof.
  rewrite drop_invalid_invoices_rows. apply Forall_forall.
  intros ir Hin. by apply list_elem_of_filter in Hin as [? _].
Qed.

Lemma csv_written_event (tr : list event) (path : string) (body : list Row) :
  (path, body) ∈ csv_written tr → ∃ header, ToCsv path header body ∈ tr.
Proof.
  unfold csv_written. rewrite list_elem_of_omap.
  intros ([p h b|p] & Hin & Heq); simplify_eq. eauto.
Qed.

(** The summary stage writes three tables and the figures, whatever the
    table it is given. *)
Lemma triple_create_summary_tables (I : event → Prop)
    (sort_values_desc : string → list (nat * Row) → list (nat * Row))
    (df : DataFrame) :
  (∀ header body, I (ToCsv "revenue_by_month.csv" header body)) →
  (∀ header body, I (ToCsv "top10_products_by_sales.csv" header body)) →
  (∀ header body, length body = 2%nat →
                  I (ToCsv "overall_metrics.csv" header body)) →
  (∀ path, I (SaveFig path)) →
  triple I (create_summary_tables sort_values_desc df) (λ _, True).
Proof.
  intros Hrev Htop Hmet Hfig. unfold create_summary_tables.
  eapply (triple_bind I _ _ (λ _, True)).
  { repeat case_match; try (by apply triple_ret); try (by apply triple_lift).
    eapply triple_bind; [by apply triple_to_csv|]. intros _ _.
    by apply triple_ret. }
  intros monthly_revenue _.
  eapply (triple_bind I _ _ (λ _, True)).
  { case_match; [|by apply triple_ret].
    eapply triple_bind; [by apply triple_to_csv|]. intros _ _.
    by apply triple_ret. }
  intros top_products _.
  eapply triple_bind; [by apply triple_to_csv, Hmet|]. intros _ _.
  eapply triple_bind; [apply triple_when; intros _; by apply triple_emit|].
  intros _ _.
  eapply triple_bind; [apply triple_when; intros _; by apply triple_emit|].
  intros _ _. apply triple_when. intros _. by apply triple_emit.
Qed.

Section Cleaned.

Context (parse_datetime : list cell → cell → option Timestamp)
        (parse_numeric : cell → option Qc)
        (float_of_str : string → option float)
        (str_of_num : Qc → string)
        (str_of_date : Timestamp → string)
        (sort_values_desc : string → list (nat * Row) → list (nat * Row)).

Abbreviation run_pipeline :=
  (clean_and_analyze parse_datetime parse_numeric float_of_str str_of_num
     str_of_date sort_values_desc).

(** Every row of [retail_cleaned.csv] has a property that holds once the
    derived columns are added and that the flag columns do not affect. *)
Lemma cleaned_rows (P : Row → Prop) (df : DataFrame) (remove : bool)
    (body : list Row) :
  stable P ["is_outlier_quantity"; "is_outlier_unit_price"] →
  (∀ df1,
     handle_missing_values float_of_str str_of_num str_of_date
       (drop_invalid_invoices (convert_dtypes parse_datetime parse_numeric df))
     = Ok df1 →
     Forall (λ ir, P ir.2)
       (rows (add_derived_columns
                (normalize_categorical str_of_num str_of_date df1)))) →
  ("retail_cleaned.csv", body) ∈ csv_written (run_pipeline df remove []).2 →
  Forall P body.
Proof.
  intros Hstable Hestablished Hin.
  set (I := λ e, match e with
                 | ToCsv path _ body =>
                     path = "retail_cleaned.csv" → Forall P body
                 | SaveFig _ => True
                 end).
  assert (triple I (run_pipeline df remove) (λ _, True)) as Htriple.
  { unfold clean_and_analyze.
    eapply triple_bind.
    - apply (triple_clean _ _ _ _ _ I
               (λ d, Forall (λ ir, P ir.2) (rows d))); try done.
      by apply flag_closed_rows.
    - intros d Hd. eapply triple_bind.
      + apply triple_to_csv. intros _. by apply Forall_fmap.
      + intros _ _. by apply triple_create_summary_tables. }
  destruct (Htriple [] (Forall_nil_2 _)) as [Hall _].
  apply csv_written_event in Hin as [header Hin].
  rewrite Forall_forall in Hall. by apply (Hall _ Hin).
Qed.

(** C1. The Validity Filter keeps exactly the rows whose invoice number
    and invoice date, as far as the table has these columns, are not
    missing; with neither column it returns the table unchanged; and every
    row of the cleaned output still has both, as far as the source table
    has the columns. *)
Theorem validity_filter_invariant (df : DataFrame) :
  rows (drop_invalid_invoices df)
  = filter (λ ir, valid_invoice df ir.2) (rows df)
  ∧ Forall (λ ir, valid_invoice df ir.2) (rows (drop_invalid_invoices df))
  ∧ (has_column "invoice_no" df = false →
     has_column "invoice_date" df = false →
     drop_invalid_invoices df = df)
  ∧ ∀ remove body,
      ("retail_cleaned.csv", body) ∈ csv_written (run_pipeline df remove []).2 →
      Forall (valid_invoice df) body.
Proof.
  split; [apply drop_invalid_invoices_rows|].
  split; [apply drop_invalid_invoices_valid|].
  split; [apply drop_invalid_invoices_absent|].
  intros remove body. apply cleaned_rows.
  - apply valid_invoice_stable; not_in_names.
  - intros df1 Hdf1.
    apply add_derived_columns_Forall;
      [apply valid_invoice_stable; not_in_names|].
    apply normalize_categorical_Forall;
      [apply valid_invoice_stable; not_in_names|].
    eapply handle_missing_values_Forall;
      [apply valid_invoice_stable; not_in_names|done|].
    eapply Forall_impl; [apply drop_invalid_invoices_valid|].
    intros [i r]. unfold valid_invoice.
    by rewrite !has_column_convert_dtypes.
Qed.

End Cleaned.

(** ** The categorical normalizer *)

Lemma column_assign_smap_eq (name name' : string) (f : cell → cell)
    (df : DataFrame) :
  column name (assign name (smap f (column name' df)) df)
  = smap f (column name' df).
Proof.
  transitivity (map (λ ir : nat * Row, (ir.1, ir.2 !!! name))
                  (rows (assign name (smap f (column name' df)) df)));
    [done|].
  rewrite assign_smap_rows, smap_column, map_map.
  apply map_ext. intros [i r]. simpl. by rewrite lookup_total_insert_eq.
Qed.

Lemma column_assign_smap_ne (name name' other : string) (f : cell → cell)
    (df : DataFrame) :
  name ≠ other →
  column other (assign name (smap f (column name' df)) df) = column other df.
Proof.
  intros Hne.
  transitivity (map (λ ir : nat * Row, (ir.1, ir.2 !!! other))
                  (rows (assign name (smap f (column name' df)) df)));
    [done|].
  rewrite assign_smap_rows, map_map. unfold column.
  apply map_ext. intros [i r]. simpl. by rewrite lookup_total_insert_ne.
Qed.

Lemma smap_smap (f g : cell → cell) (s : Series) :
  smap f (smap g s) = smap (f ∘ g) s.
Proof. unfold smap. rewrite map_map. by apply map_ext. Qed.


Section Country.

Context (str_of_num : Qc → string) (str_of_date : Timestamp → string).

Abbreviation country_of := (normalize_country str_of_num str_of_date).



Lemma country_map_lookup (k v : string) :
  country_map !! k = Some v ↔
  (k, v) ∈ [("Uk", "United Kingdom");
            ("United Kingdom", "United Kingdom");
            ("Eire", "Ireland")].
Proof.
  unfold country_map. symmetry. apply elem_of_list_to_map.
  simpl. repeat (constructor; [not_in_names|]). constructor.
Qed.


End Country.

Section MissingCountry.

Context (parse_datetime : list cell → cell → option Timestamp)
        (parse_numeric : cell → option Qc)
        (float_of_str : string → option float)
        (str_of_num : Qc → string)
        (str_of_date : Timestamp → string)
        (sort_values_desc : string → list (nat * Row) → list (nat * Row)).

Lemma columns_handle_missing_values (df df' : DataFrame) :
  handle_missing_values float_of_str str_of_num str_of_date df = Ok df' →
  columns df' = columns df.
Proof.
  unfold handle_missing_values. intros Heq.
  destruct (has_column "description" df) eqn:Ed.
  - set (d1 := assign "description" _ df) in Heq.
    assert (columns d1 = columns df) as E1
      by by apply has_column_assign_same.
    assert (has_column "description" d1 = true) as Ed1
      by (unfold has_column; by rewrite E1).
    set (d2 := assign "description" _ d1) in Heq.
    assert (columns d2 = columns df) as E2
      by (rewrite <- E1; by apply has_column_assign_same).
    destruct (has_column "customer_id" d2) eqn:Ec;
      repeat case_match; simplify_eq; [|done].
    rewrite <- E2. by apply has_column_assign_same.
  - destruct (has_column "customer_id" df) eqn:Ec;
      repeat case_match; simplify_eq; [|done].
    by apply has_column_assign_same.
Qed.



End MissingCountry.

(** ** The duplicate detector *)

Lemma drop_duplicates_keep_first (df : DataFrame) :
  rows (drop_duplicates df) = keep_first [] (rows df).
Proof. done. Qed.

Lemma keep_first_cons (seen : list Row) (x : nat * Row) (l : list (nat * Row)) :
  keep_first seen (x :: l)
  = if decide (x.2 ∈ seen) then keep_first (x.2 :: seen) l
    else x :: keep_first (x.2 :: seen) l.
Proof.
  unfold keep_first. simpl.
  destruct (decide (x.2 ∈ seen)) as [Hin|Hnin].
  - by rewrite bool_decide_eq_true_2.
  - by rewrite bool_decide_eq_false_2.
Qed.

Lemma keep_first_seen_ext (seen seen' : list Row) (l : list (nat * Row)) :
  (∀ r, r ∈ seen ↔ r ∈ seen') → keep_first seen l = keep_first seen' l.
Proof.
  revert seen seen'. induction l as [|x l IH]; intros seen seen' Hext; [done|].
  rewrite !keep_first_cons.
  assert (keep_first (x.2 :: seen) l = keep_first (x.2 :: seen') l) as ->.
  { apply IH. intros r. rewrite !elem_of_cons. by rewrite Hext. }
  destruct (decide (x.2 ∈ seen)) as [Hin|Hnin],
           (decide (x.2 ∈ seen')) as [Hin'|Hnin']; try done;
    exfalso; [apply Hnin'|apply Hnin]; by apply Hext.
Qed.

(** Rows are examined from the first to the last; a row is kept when no
    earlier row has its contents. *)
Lemma keep_first_snoc (seen : list Row) (l : list (nat * Row)) (x : nat * Row) :
  keep_first seen (l ++ [x])
  = keep_first seen l
    ++ (if decide (x.2 ∈ seen ∨ x.2 ∈ l.*2) then [] else [x]).
Proof.
  revert seen. induction l as [|y l IH]; intros seen.
  - simpl. rewrite keep_first_cons. unfold keep_first. simpl.
    destruct (decide (x.2 ∈ seen)), (decide (x.2 ∈ seen ∨ x.2 ∈ [])); try done.
    + exfalso; naive_solver.
    + exfalso. destruct o as [?|Hnil]; [done|]. by apply elem_of_nil in Hnil.
  - change ((y :: l) ++ [x]) with (y :: (l ++ [x])).
    rewrite !keep_first_cons, IH.
    assert ((x.2 ∈ y.2 :: seen ∨ x.2 ∈ l.*2)
            ↔ (x.2 ∈ seen ∨ x.2 ∈ (y :: l).*2)) as Hiff.
    { rewrite fmap_cons, !elem_of_cons. tauto. }
    destruct (decide (x.2 ∈ y.2 :: seen ∨ x.2 ∈ l.*2)),
             (decide (x.2 ∈ seen ∨ x.2 ∈ (y :: l).*2)); try tauto;
      by destruct (decide (y.2 ∈ seen)).
Qed.

Lemma keep_first_sublist (seen : list Row) (l : list (nat * Row)) :
  sublist (keep_first seen l) l.
Proof. apply boolean_index_sublist. Qed.

Lemma keep_first_contents (seen : list Row) (l : list (nat * Row)) (r : Row) :
  r ∈ (keep_first seen l).*2 ↔ r ∈ l.*2 ∧ r ∉ seen.
Proof.
  revert seen. induction l as [|x l IH]; intros seen.
  - unfold keep_first. simpl. rewrite elem_of_nil. tauto.
  - rewrite keep_first_cons.
    destruct (decide (x.2 ∈ seen)) as [Hin|Hnin].
    + rewrite IH, not_elem_of_cons, fmap_cons, elem_of_cons.
      split; [tauto|]. intros [[->|?] ?]; [done|].
      split; [done|]. split; [|done]. by intros ->.
    + rewrite !fmap_cons, elem_of_cons, IH, not_elem_of_cons, elem_of_cons.
      destruct (decide (r = x.2)) as [->|Hne]; tauto.
Qed.

Lemma keep_first_NoDup (seen : list Row) (l : list (nat * Row)) :
  NoDup (keep_first seen l).*2.
Proof.
  revert seen. induction l as [|x l IH]; intros seen.
  - unfold keep_first. simpl. constructor.
  - rewrite keep_first_cons. destruct (decide (x.2 ∈ seen)); [apply IH|].
    rewrite fmap_cons. constructor; [|apply IH].
    rewrite keep_first_contents, not_elem_of_cons. tauto.
Qed.

(** Nothing is removed when no contents repeat. *)
Lemma keep_first_id (seen : list Row) (l : list (nat * Row)) :
  NoDup l.*2 → (∀ r, r ∈ l.*2 → r ∉ seen) → keep_first seen l = l.
Proof.
  revert seen. induction l as [|x l IH]; intros seen Hnd Hseen; [done|].
  rewrite fmap_cons in Hnd. apply NoDup_cons in Hnd as [Hx Hnd].
  rewrite keep_first_cons.
  destruct (decide (x.2 ∈ seen)) as [Hin|_].
  - exfalso. apply (Hseen x.2); [|done]. rewrite fmap_cons. apply elem_of_cons.
    by left.
  - f_equal. apply IH; [done|]. intros r Hr.
    rewrite not_elem_of_cons. split.
    + by intros ->.
    + apply Hseen. rewrite fmap_cons. apply elem_of_cons. by right.
Qed.

Lemma occurrences_NoDup (r : Row) (l : list Row) :
  NoDup l → r ∈ l → occurrences r l = 1%nat.
Proof.
  unfold occurrences. induction 1 as [|x l Hx Hnd IH]; intros Hin.
  - by apply elem_of_nil in Hin.
  - destruct (decide (x = r)) as [->|Hne].
    + rewrite filter_cons_True by done. simpl. f_equal.
      apply length_zero_iff_nil. apply elem_of_nil_inv. intros y Hy.
      apply list_elem_of_filter in Hy as [-> ?]. done.
    + rewrite filter_cons_False by done. apply IH.
      apply elem_of_cons in Hin as [?|?]; [congruence|done].
Qed.

Lemma occurrences_pos (r : Row) (l : list Row) :
  r ∈ l ↔ (1 ≤ occurrences r l)%nat.
Proof.
  unfold occurrences. split.
  - intros Hin. assert (r ∈ filter (λ r', r' = r) l) as H
      by by apply list_elem_of_filter.
    destruct (filter (λ r', r' = r) l); simpl; [by apply elem_of_nil in H|lia].
  - intros Hlen. destruct (filter (λ r', r' = r) l) as [|y f] eqn:E;
      simpl in Hlen; [lia|].
    assert (y ∈ filter (λ r', r' = r) l) as H by (rewrite E; by left).
    apply list_elem_of_filter in H as [-> ?]. done.
Qed.

Lemma boolean_index_map_fmap {A B} (p : B → bool) (g : A → B) (l : list A) :
  boolean_index (map p (g <$> l)) l = filter (λ x, p (g x) = true) l.
Proof.
  rewrite <- (boolean_index_map (λ x, p (g x))). f_equal.
  induction l as [|x l IH]; [done|]. rewrite fmap_cons. simpl. by rewrite IH.
Qed.

Lemma duplicate_log_rows (df : DataFrame) :
  rows (duplicate_log df)
  = filter (λ ir, (2 ≤ occurrences ir.2 (rows df).*2)%nat) (rows df).
Proof.
  unfold duplicate_log, duplicated_all, select. simpl.
  etrans; [apply (boolean_index_map_fmap
                    (λ r, bool_decide (2 ≤ occurrences r (rows df).*2)%nat)
                    snd (rows df))|].
  apply list_filter_iff. intros [i r]. simpl.
  by rewrite bool_decide_eq_true.
Qed.

Lemma occurrences_filter (Q : Row → Prop) `{∀ r, Decision (Q r)}
    (r : Row) (l : list (nat * Row)) :
  occurrences r (filter (λ ir, Q ir.2) l).*2
  = if decide (Q r) then occurrences r l.*2 else 0%nat.
Proof.
  unfold occurrences. destruct (decide (Q r)) as [Hr|Hr].
  - induction l as [|x l IH]; [done|].
    rewrite fmap_cons.
    destruct (decide (x.2 = r)) as [Heq|Hne].
    + rewrite filter_cons_True by (by rewrite Heq).
      rewrite fmap_cons, !(filter_cons_True (λ r', r' = r)) by done.
      simpl. by rewrite IH.
    + rewrite (filter_cons_False (λ r', r' = r)) by done.
      rewrite <- IH.
      destruct (decide (Q x.2)).
      * rewrite filter_cons_True by done.
        by rewrite fmap_cons, (filter_cons_False (λ r', r' = r)) by done.
      * by rewrite filter_cons_False by done.
  - apply length_zero_iff_nil, elem_of_nil_inv. intros y Hy.
    apply list_elem_of_filter in Hy as [-> Hy].
    apply list_elem_of_fmap in Hy as (ir & -> & Hir).
    apply list_elem_of_filter in Hir as [? _]. done.
Qed.

Lemma deduplicate_and_log_run (df : DataFrame) (tr : list event) :
  deduplicate_and_log df tr
  = (Ok (drop_duplicates df),
     tr ++ if is_empty (duplicate_log df) then []
           else [ToCsv "duplicates_logged.csv" (columns df)
                       (rows (duplicate_log df)).*2]).
Proof.
  unfold deduplicate_and_log, bind, when, to_csv, emit, ret.
  destruct (is_empty (duplicate_log df)); simpl; [|done].
  by rewrite app_nil_r.
Qed.

(** C3. The duplicate log holds exactly the rows whose contents occur at
    least twice in the table it is given, first occurrences included, and is
    written when it is not empty.  Deduplication examines the rows in order
    and keeps a row when no earlier row has the same contents: the survivors
    are a subsequence of the table, no two alike, one for each distinct row.
    A row that occurs twice or more has one survivor and all its occurrences
    in the log. *)
Theorem duplicate_detector (df : DataFrame) :
  rows (duplicate_log df)
  = filter (λ ir, (2 ≤ occurrences ir.2 (rows df).*2)%nat) (rows df)
  ∧ (∀ tr,
       deduplicate_and_log df tr
       = (Ok (drop_duplicates df),
          tr ++ if is_empty (duplicate_log df) then []
                else [ToCsv "duplicates_logged.csv" (columns df)
                            (rows (duplicate_log df)).*2]))
  ∧ rows (drop_duplicates {| columns := columns df; rows := [] |}) = []
  ∧ (∀ l x,
       rows (drop_duplicates {| columns := columns df; rows := l ++ [x] |})
       = rows (drop_duplicates {| columns := columns df; rows := l |})
         ++ (if decide (x.2 ∈ l.*2) then [] else [x]))
  ∧ sublist (rows (drop_duplicates df)) (rows df)
  ∧ NoDup (rows (drop_duplicates df)).*2
  ∧ (∀ r, r ∈ (rows df).*2 →
          occurrences r (rows (drop_duplicates df)).*2 = 1%nat)
  ∧ (∀ r, (2 ≤ occurrences r (rows df).*2)%nat →
          occurrences r (rows (duplicate_log df)).*2
          = occurrences r (rows df).*2).
Proof.
  split; [apply duplicate_log_rows|].
  split; [apply deduplicate_and_log_run|].
  split; [done|].
  split.
  { intros l x. rewrite !drop_duplicates_keep_first. simpl.
    rewrite keep_first_snoc.
    destruct (decide (x.2 ∈ [] ∨ x.2 ∈ l.*2)) as [[Hnil|?]|Hn],
             (decide (x.2 ∈ l.*2)); try done.
    - by apply elem_of_nil in Hnil.
    - exfalso. apply Hn. by right. }
  split; [apply keep_first_sublist|].
  split; [apply keep_first_NoDup|].
  split.
  - intros r Hr. apply occurrences_NoDup; [apply keep_first_NoDup|].
    rewrite drop_duplicates_keep_first. apply keep_first_contents.
    split; [done|apply not_elem_of_nil].
  - intros r Hr. rewrite duplicate_log_rows.
    pose proof (occurrences_filter
                  (λ r', (2 ≤ occurrences r' (rows df).*2)%nat) r (rows df))
      as Hocc.
    etrans; [exact Hocc|].
    cbv beta. case_decide; [done|lia].
Qed.

(** C7. Run on its own output, the Duplicate Detector returns the table
    unchanged, finds nothing to log and writes no file. *)
Theorem deduplication_idempotent (df : DataFrame) :
  (∀ tr, (deduplicate_and_log df tr).1 = Ok (drop_duplicates df))
  ∧ drop_duplicates (drop_duplicates df) = drop_duplicates df
  ∧ rows (duplicate_log (drop_duplicates df)) = []
  ∧ ∀ tr, deduplicate_and_log (drop_duplicates df) tr
          = (Ok (drop_duplicates df), tr).
Proof.
  assert (drop_duplicates (drop_duplicates df) = drop_duplicates df) as Hid.
  { unfold drop_duplicates at 1. unfold select.
    change (boolean_index _ (rows (drop_duplicates df)))
      with (keep_first [] (rows (drop_duplicates df))).
    rewrite keep_first_id.
    - by destruct (drop_duplicates df).
    - apply keep_first_NoDup.
    - intros r _. apply not_elem_of_nil. }
  assert (rows (duplicate_log (drop_duplicates df)) = []) as Hlog.
  { rewrite duplicate_log_rows. apply elem_of_nil_inv. intros ir Hin.
    apply list_elem_of_filter in Hin as [Hcount Hin].
    rewrite occurrences_NoDup in Hcount.
    - lia.
    - apply keep_first_NoDup.
    - apply list_elem_of_fmap. by exists ir. }
  split; [intros tr; by rewrite deduplicate_and_log_run|].
  split; [done|]. split; [done|].
  intros tr. rewrite deduplicate_and_log_run, Hid.
  unfold is_empty. rewrite Hlog.
  destruct (columns (duplicate_log (drop_duplicates df))); by rewrite app_nil_r.
Qed.

(** ** The outlier detector *)

Lemma setitem_written (full mask : list (nat * bool)) :
  setitem full mask = map (written mask) full.
Proof.
  unfold setitem. revert full. induction mask as [|lb mask IH]; intros full.
  - simpl. by rewrite map_id.
  - simpl. rewrite IH, map_map. reflexivity.
Qed.

Lemma written_absent (mask : list (nat * bool)) (e : nat * bool) :
  e.1 ∉ mask.*1 → written mask e = e.
Proof.
  unfold written. revert e. induction mask as [|lb mask IH]; intros e He;
    [done|].
  rewrite fmap_cons, not_elem_of_cons in He. destruct He as [Hne He].
  simpl. rewrite decide_False by done. by apply IH.
Qed.

Lemma written_present (mask : list (nat * bool)) (l : nat) (b b0 : bool) :
  NoDup mask.*1 → (l, b) ∈ mask → written mask (l, b0) = (l, b).
Proof.
  unfold written. revert b0. induction mask as [|lb mask IH]; intros b0 Hnd Hin.
  - by apply elem_of_nil in Hin.
  - rewrite fmap_cons in Hnd. apply NoDup_cons in Hnd as [Hlb Hnd].
    simpl. apply elem_of_cons in Hin as [<-|Hin].
    + simpl. rewrite decide_True by done. by apply written_absent.
    + rewrite decide_False; [by apply IH|].
      simpl. intros ->. apply Hlb. apply list_elem_of_fmap. by exists (lb.1, b).
Qed.

Lemma NoDup_fst_functional {A} (l : list (nat * A)) (x y : nat * A) :
  NoDup l.*1 → x ∈ l → y ∈ l → x.1 = y.1 → x = y.
Proof.
  induction l as [|z l IH]; intros Hnd Hx Hy Heq.
  - by apply elem_of_nil in Hx.
  - rewrite fmap_cons in Hnd. apply NoDup_cons in Hnd as [Hz Hnd].
    apply elem_of_cons in Hx as [->|Hx], Hy as [->|Hy]; auto.
    + exfalso. apply Hz. rewrite Heq. apply list_elem_of_fmap. by exists y.
    + exfalso. apply Hz. rewrite <- Heq. apply list_elem_of_fmap. by exists x.
Qed.

(** Writing, at their labels, the values computed on the entries kept by a
    filter gives every entry its value, when the value of a dropped entry
    is false. *)
Lemma setitem_filtered {A} (keep : A → Prop) `{∀ x, Decision (keep x)}
    (g : A → bool) (s : list (nat * A)) :
  NoDup s.*1 →
  (∀ x, ¬ keep x → g x = false) →
  setitem (map (λ lv, (lv.1, false)) s)
          (map (λ lv, (lv.1, g lv.2)) (filter (λ lv, keep lv.2) s))
  = map (λ lv, (lv.1, g lv.2)) s.
Proof.
  intros Hnd Hg. rewrite setitem_written, map_map.
  set (mask := map _ (filter _ s)).
  assert (mask.*1 = (filter (λ lv, keep lv.2) s).*1) as Hlabels.
  { unfold mask. rewrite <- list_fmap_compose. reflexivity. }
  assert (NoDup mask.*1) as Hmask.
  { rewrite Hlabels. eapply sublist_NoDup; [exact Hnd|].
    apply fmap_sublist, sublist_filter. }
  apply map_ext_in. intros lv Hin. apply list_elem_of_In in Hin. simpl.
  destruct (decide (keep lv.2)) as [Hk|Hk].
  - apply written_present; [done|].
    unfold mask. apply (list_elem_of_fmap_2 (λ lv, (lv.1, g lv.2))).
    by apply list_elem_of_filter.
  - rewrite (Hg _ Hk). apply written_absent. simpl. rewrite Hlabels.
    intros Hl. apply list_elem_of_fmap in Hl as (lv' & Heq & Hin').
    apply list_elem_of_filter in Hin' as [Hk' Hin'].
    apply Hk. by rewrite (NoDup_fst_functional s lv lv' Hnd Hin Hin' Heq).
Qed.

Lemma detect_outliers_iqr_eq (s : Series) :
  detect_outliers_iqr s
  = (map (λ lv, (lv.1, outside (iqr_bounds (numeric_values s)) lv.2)) s,
     (iqr_bounds (numeric_values s)).1, (iqr_bounds (numeric_values s)).2).
Proof. reflexivity. Qed.

Lemma omap_cons_eq {A B} (f : A → option B) (x : A) (l l' : list A) :
  omap f l = omap f l' → omap f (x :: l) = omap f (x :: l').
Proof.
  intros H. change (omap f (x :: l)) with (from_option (λ y, y :: omap f l) (omap f l) (f x)).
  change (omap f (x :: l')) with (from_option (λ y, y :: omap f l') (omap f l') (f x)).
  by rewrite H.
Qed.

Lemma omap_map {A B C} (f : B → option C) (g : A → B) (l : list A) :
  omap f (map g l) = omap (λ x, f (g x)) l.
Proof.
  induction l as [|x l IH]; [done|].
  change (map g (x :: l)) with (g x :: map g l).
  change (omap f (g x :: map g l))
    with (from_option (λ y, y :: omap f (map g l)) (omap f (map g l)) (f (g x))).
  by rewrite IH.
Qed.

Lemma omap_ext_all {A B} (f g : A → option B) (l : list A) :
  (∀ x, f x = g x) → omap f l = omap g l.
Proof.
  intros Hfg. induction l as [|x l IH]; [done|].
  change (omap f (x :: l))
    with (from_option (λ y, y :: omap f l) (omap f l) (f x)).
  change (omap g (x :: l))
    with (from_option (λ y, y :: omap g l) (omap g l) (g x)).
  by rewrite IH, Hfg.
Qed.

Lemma numeric_values_dropna (s : Series) :
  numeric_values (dropna_series s) = numeric_values s.
Proof.
  unfold numeric_values, dropna_series. induction s as [|[l c] s IH]; [done|].
  destruct (isna c) eqn:E.
  - rewrite filter_cons_False by (simpl; congruence).
    by destruct c.
  - rewrite filter_cons_True by done. by apply omap_cons_eq.
Qed.

Lemma numeric_values_column (name : string) (df : DataFrame) :
  numeric_values (column name df) = column_values name df.
Proof.
  unfold numeric_values, column_values, column.
  rewrite omap_map.
  change ((rows df).*2) with (map snd (rows df)). by rewrite omap_map.
Qed.

Lemma outside_missing (bounds : float * float) (c : cell) :
  isna c ≠ false → outside bounds c = false.
Proof. destruct c; try done. intros _. unfold outside. simpl. by destruct bounds.2. Qed.

(** The flag of every row is decided by its own value and the bounds. *)
Lemma outlier_flags_rows (name : string) (df : DataFrame) :
  NoDup (index df) →
  outlier_flags name df
  = map (λ ir, (ir.1, Bool (outside (iqr_bounds (column_values name df))
                                    (ir.2 !!! name))))
        (rows df).
Proof.
  intros Hnd. unfold outlier_flags. rewrite detect_outliers_iqr_eq.
  cbv beta iota zeta.
  rewrite numeric_values_dropna, numeric_values_column.
  set (bounds := iqr_bounds (column_values name df)).
  assert (map (λ i, (i, false)) (index df)
          = map (λ lv : nat * cell, (lv.1, false)) (column name df)) as ->.
  { unfold index, column. by rewrite !map_map. }
  unfold dropna_series.
  pose proof (setitem_filtered (λ c, isna c = false) (outside bounds)
                (column name df)) as Hset.
  cbv beta in Hset. rewrite Hset.
  - unfold column. by rewrite !map_map.
  - unfold column.
    replace ((map (λ ir : nat * Row, (ir.1, ir.2 !!! name)) (rows df)).*1)
      with (index df); [done|].
    unfold index. rewrite <- list_fmap_compose. reflexivity.
  - intros c. apply outside_missing.
Qed.

Lemma index_map_rows (f : nat * Row → Row) (cols : list string)
    (l : list (nat * Row)) :
  index {| columns := cols; rows := map (λ ir, (ir.1, f ir)) l |}
  = map fst l.
Proof. unfold index. simpl. by rewrite map_map. Qed.

Lemma assign_flags_rows (flag name : string) (df : DataFrame) :
  NoDup (index df) →
  rows (assign flag (outlier_flags name df) df)
  = map (λ ir, (ir.1,
                <[flag := Bool (outside (iqr_bounds (column_values name df))
                                        (ir.2 !!! name))]> ir.2))
        (rows df).
Proof.
  intros Hnd. rewrite outlier_flags_rows by done.
  apply (assign_rows_map flag
           (λ ir, Bool (outside (iqr_bounds (column_values name df))
                                (ir.2 !!! name)))).
Qed.

Lemma column_values_insert (flag name : string) (g : nat * Row → cell)
    (d d' : DataFrame) :
  flag ≠ name →
  rows d' = map (λ ir, (ir.1, <[flag := g ir]> ir.2)) (rows d) →
  column_values name d' = column_values name d.
Proof.
  intros Hne Hrows. unfold column_values. rewrite Hrows.
  change ((map ?f (rows d)).*2) with (map snd (map f (rows d))).
  change ((rows d).*2) with (map snd (rows d)).
  rewrite map_map, !omap_map. apply omap_ext_all.
  intros [i r]. simpl. by rewrite lookup_total_insert_ne.
Qed.

Lemma index_insert (flag : string) (g : nat * Row → cell) (d d' : DataFrame) :
  rows d' = map (λ ir, (ir.1, <[flag := g ir]> ir.2)) (rows d) →
  index d' = index d.
Proof. intros Hrows. unfold index. by rewrite Hrows, map_map. Qed.

Lemma flag_columns_rows (df : DataFrame) :
  NoDup (index df) →
  rows (flag_columns df).1 = map (λ ir, (ir.1, flag_row df ir.2)) (rows df).
Proof.
  intros Hnd. unfold flag_columns, flag_row.
  destruct (has_column "quantity" df) eqn:Eq.
  - pose proof (assign_flags_rows "is_outlier_quantity" "quantity" df Hnd)
      as Hrows1.
    rewrite has_column_assign. simpl. rewrite orb_false_r.
    set (df1 := assign "is_outlier_quantity" _ df) in *.
    destruct (has_column "unit_price" df) eqn:Ep; cbn [fst snd]; [|done].
    rewrite assign_flags_rows
      by (by rewrite (index_insert _ _ _ _ Hrows1)).
    rewrite (column_values_insert "is_outlier_quantity" "unit_price" _ df df1
               ltac:(done) Hrows1).
    rewrite Hrows1, map_map. reflexivity.
  - destruct (has_column "unit_price" df) eqn:Ep; cbn [fst snd].
    + by rewrite assign_flags_rows.
    + symmetry. etrans; [|apply map_id]. apply map_ext. by intros [].
Qed.

Lemma flag_columns_names (df : DataFrame) :
  (flag_columns df).2
  = (if has_column "quantity" df then ["is_outlier_quantity"] else [])
    ++ (if has_column "unit_price" df then ["is_outlier_unit_price"] else []).
Proof.
  unfold flag_columns. destruct (has_column "quantity" df) eqn:Eq.
  - rewrite has_column_assign. simpl. rewrite orb_false_r.
    by destruct (has_column "unit_price" df).
  - by destruct (has_column "unit_price" df).
Qed.

(** The columns after flagging depend on the columns before only. *)
Lemma flag_columns_columns_ext (df1 df2 : DataFrame) :
  columns df1 = columns df2 →
  columns (flag_columns df1).1 = columns (flag_columns df2).1.
Proof.
  intros Hcols.
  assert (∀ c, has_column c df1 = has_column c df2) as Hhas
    by (intros c; unfold has_column; by rewrite Hcols).
  assert (∀ name s1 s2 d1 d2, columns d1 = columns d2 →
            columns (assign name s1 d1) = columns (assign name s2 d2))
    as Hassign.
  { intros name s1 s2 d1 d2 Hd. unfold assign, has_column. simpl.
    by rewrite Hd. }
  unfold flag_columns. rewrite !Hhas.
  destruct (has_column "quantity" df2).
  - rewrite !has_column_assign, !Hhas.
    rewrite (bool_decide_eq_false_2 ("unit_price" = "is_outlier_quantity"))
      by done.
    destruct (has_column "unit_price" df2); cbn [fst snd orb]; auto.
  - rewrite !Hhas. destruct (has_column "unit_price" df2); cbn [fst snd]; auto.
Qed.

(** The stage always returns: the flagged table, without its flagged rows
    when removal is asked for. *)
Lemma flag_result (df : DataFrame) (remove : bool) (tr : list event) :
  ∃ d tr',
    flag_and_optionally_remove_outliers df remove tr = (Ok d, tr')
    ∧ columns d = columns (flag_columns df).1
    ∧ rows d
      = if remove
        then filter (λ ir, flagged (flag_columns df).2 ir.2 = false)
                    (rows (flag_columns df).1)
        else rows (flag_columns df).1.
Proof.
  rewrite flag_and_optionally_remove_outliers_eq.
  destruct (flag_columns df).2 as [|c cols] eqn:Ecols.
  - exists (flag_columns df).1, tr. split; [done|]. split; [done|].
    destruct remove; [|done]. symmetry. by apply filter_all.
  - cbv zeta. set (df1 := (flag_columns df).1).
    set (mask := any_axis1 (c :: cols) df1).
    exists (if remove then select (map negb mask) df1 else df1).
    unfold bind, when, to_csv, emit, ret.
    destruct (negb (is_empty (select mask df1))); eexists;
      (split; [reflexivity|]); (split; [by destruct remove|]);
      (destruct remove; [|done]); unfold mask, any_axis1, select; simpl;
      rewrite map_map, boolean_index_map; apply list_filter_iff;
      intros [i r]; simpl; apply negb_true_iff.
Qed.


#[global] Instance Qcle_total : Total Qcle.
Proof.
  intros x y. destruct (Qclt_le_dec x y); [left|right]; [|done].
  by apply Qclt_le_weak.
Qed.
#[global] Instance Qcle_transitive : Transitive Qcle.
Proof. intros x y z. apply Qcle_trans. Qed.
#[global] Instance Qcle_antisymm : AntiSymm (=) Qcle.
Proof. intros x y. apply Qcle_antisym. Qed.


(** ** Flagging does not depend on the order of the rows *)

Lemma iqr_bounds_Permutation (values values' : list Qc) :
  values ≡ₚ values' → iqr_bounds values = iqr_bounds values'.
Proof.
  intros Hperm. unfold iqr_bounds.
  assert (merge_sort Qcle values = merge_sort Qcle values') as ->; [|done].
  apply (Sorted_unique Qcle); try apply Sorted_merge_sort; try apply _.
  by rewrite !merge_sort_Permutation.
Qed.

Lemma column_values_Permutation (name : string) (df1 df2 : DataFrame) :
  (rows df1).*2 ≡ₚ (rows df2).*2 →
  column_values name df1 ≡ₚ column_values name df2.
Proof. intros Hperm. unfold column_values. by rewrite Hperm. Qed.

Lemma flag_row_ext (df1 df2 : DataFrame) (r : Row) :
  columns df1 = columns df2 →
  (rows df1).*2 ≡ₚ (rows df2).*2 →
  flag_row df1 r = flag_row df2 r.
Proof.
  intros Hcols Hperm. unfold flag_row, has_column. rewrite Hcols.
  by rewrite !(iqr_bounds_Permutation _ _
                 (column_values_Permutation _ df1 df2 Hperm)).
Qed.

Lemma fmap_snd_map_rows (f : Row → Row) (l : list (nat * Row)) :
  (map (λ ir, (ir.1, f ir.2)) l).*2 = f <$> l.*2.
Proof.
  change (map ?g l) with (g <$> l).
  rewrite <- !list_fmap_compose. by apply list_fmap_ext.
Qed.

Lemma fmap_snd_filter (P : Row → Prop) `{∀ r, Decision (P r)}
    (l : list (nat * Row)) :
  (filter (λ ir, P ir.2) l).*2 = filter P l.*2.
Proof.
  induction l as [|[i r] l IH]; [done|].
  rewrite fmap_cons. simpl. destruct (decide (P r)).
  - rewrite !filter_cons_True by done. by rewrite fmap_cons, IH.
  - by rewrite !filter_cons_False by done.
Qed.

(** The contents of the rows the stage returns. *)
Lemma flag_result_contents (df : DataFrame) (remove : bool) (tr : list event) :
  NoDup (index df) →
  ∃ d tr',
    flag_and_optionally_remove_outliers df remove tr = (Ok d, tr')
    ∧ columns d = columns (flag_columns df).1
    ∧ (rows d).*2
      = if remove
        then filter (λ r, flagged (flag_columns df).2 r = false)
                    (flag_row df <$> (rows df).*2)
        else flag_row df <$> (rows df).*2.
Proof.
  intros Hnd.
  destruct (flag_result df remove tr) as (d & tr' & Hrun & Hcols & Hrows).
  exists d, tr'. split; [done|]. split; [done|].
  rewrite Hrows, flag_columns_rows by done.
  destruct remove.
  - pose proof (fmap_snd_filter
                  (λ r, flagged (flag_columns df).2 r = false)
                  (map (λ ir, (ir.1, flag_row df ir.2)) (rows df))) as Hfilter.
    cbv beta in Hfilter. by rewrite Hfilter, fmap_snd_map_rows.
  - by rewrite fmap_snd_map_rows.
Qed.

(** C8. Two tables with the same columns whose rows are the same up to
    their order are flagged alike: the rows returned, each with its flags,
    are the same up to their order, whether or not the flagged rows are
    removed. *)
Theorem outlier_flagging_order_independent
    (df1 df2 : DataFrame) (remove : bool) (tr1 tr2 : list event) :
  columns df1 = columns df2 →
  NoDup (index df1) → NoDup (index df2) →
  (rows df1).*2 ≡ₚ (rows df2).*2 →
  ∃ d1 d2 tr1' tr2',
    flag_and_optionally_remove_outliers df1 remove tr1 = (Ok d1, tr1')
    ∧ flag_and_optionally_remove_outliers df2 remove tr2 = (Ok d2, tr2')
    ∧ columns d1 = columns d2
    ∧ (rows d1).*2 ≡ₚ (rows d2).*2.
Proof.
  intros Hcols Hnd1 Hnd2 Hperm.
  destruct (flag_result_contents df1 remove tr1 Hnd1)
    as (d1 & tr1' & Hrun1 & Hc1 & Hr1).
  destruct (flag_result_contents df2 remove tr2 Hnd2)
    as (d2 & tr2' & Hrun2 & Hc2 & Hr2).
  exists d1, d2, tr1', tr2'. split; [done|]. split; [done|].
  split; [rewrite Hc1, Hc2; by apply flag_columns_columns_ext|].
  rewrite Hr1, Hr2.
  assert ((flag_columns df1).2 = (flag_columns df2).2) as ->.
  { rewrite !flag_columns_names. unfold has_column. by rewrite Hcols. }
  assert (flag_row df1 <$> (rows df1).*2 ≡ₚ flag_row df2 <$> (rows df2).*2)
    as Hflag.
  { rewrite Hperm.
    assert (flag_row df1 <$> (rows df2).*2 = flag_row df2 <$> (rows df2).*2)
      as ->; [|done].
    apply list_fmap_ext. intros i r _. by apply flag_row_ext. }
  destruct remove; [|done]. by rewrite Hflag.
Qed.

(** ** The top products *)

#[global] Instance descending_total by_ : Total (descending by_).
Proof.
  intros a b. unfold descending.
  destruct (as_float (a.2 !!! by_)) as [x|], (as_float (b.2 !!! by_)) as [y|];
    auto.
  destruct (total Qcle x y); auto.
Qed.

#[global] Instance descending_transitive by_ : Transitive (descending by_).
Proof.
  intros a b c. unfold descending.
  destruct (as_float (a.2 !!! by_)) as [x|], (as_float (b.2 !!! by_)) as [y|],
           (as_float (c.2 !!! by_)) as [z|]; try done.
  intros Hyx Hzy. by transitivity y.
Qed.







(** ** Runs that complete *)

Lemma returns_ret {A} (a : A) (Q : A → list event → Prop) :
  Q a [] → returns (ret a) Q.
Proof. intros H tr. exists a, []. by rewrite app_nil_r. Qed.

Lemma returns_lift {A} (a : A) (Q : A → list event → Prop) :
  Q a [] → returns (lift (Ok a)) Q.
Proof. intros H tr. exists a, []. by rewrite app_nil_r. Qed.

Lemma returns_emit (e : event) (Q : unit → list event → Prop) :
  Q tt [e] → returns (emit e) Q.
Proof. intros H tr. by exists tt, [e]. Qed.

Lemma returns_bind {A B} (m : IO A) (k : A → IO B)
    (Q : A → list event → Prop) (R : B → list event → Prop) :
  returns m Q →
  (∀ a es1, Q a es1 → returns (k a) (λ b es2, R b (es1 ++ es2))) →
  returns (bind m k) R.
Proof.
  intros Hm Hk tr. destruct (Hm tr) as (a & es1 & Hrun & HQ).
  destruct (Hk a es1 HQ (tr ++ es1)) as (b & es2 & Hrun' & HR).
  exists b, (es1 ++ es2). unfold bind. rewrite Hrun, Hrun'.
  by rewrite app_assoc.
Qed.

Lemma returns_when (b : bool) (m : IO unit) (Q : unit → list event → Prop) :
  (b = true → returns m Q) → (b = false → Q tt []) → returns (when b m) Q.
Proof.
  destruct b; simpl; intros H1 H2; [auto|]. apply returns_ret. auto.
Qed.

Lemma returns_weaken {A} (m : IO A) (Q Q' : A → list event → Prop) :
  returns m Q → (∀ a es, Q a es → Q' a es) → returns m Q'.
Proof.
  intros H HQ tr. destruct (H tr) as (a & es & Hrun & Ha). eauto.
Qed.

(** A value returned satisfies what a triple promises. *)
Lemma returns_triple {A} (m : IO A) (Q : A → list event → Prop)
    (T : A → Prop) :
  returns m Q → triple (λ _, True) m T → returns m (λ a es, Q a es ∧ T a).
Proof.
  intros Hr Ht tr. destruct (Hr tr) as (a & es & Hrun & HQ).
  exists a, es. split; [done|]. split; [done|].
  destruct (Ht tr) as [_ HT]; [by apply Forall_forall|].
  apply HT. by rewrite Hrun.
Qed.

Lemma deduplicate_and_log_returns (df : DataFrame) :
  returns (deduplicate_and_log df) (λ d _, d = drop_duplicates df).
Proof. intros tr. rewrite deduplicate_and_log_run. eauto. Qed.

Lemma flag_returns (df : DataFrame) (remove : bool) :
  returns (flag_and_optionally_remove_outliers df remove) (λ _ _, True).
Proof.
  rewrite flag_and_optionally_remove_outliers_eq.
  destruct (flag_columns df).2; [by apply returns_ret|].
  cbv zeta. eapply returns_bind.
  - apply (returns_when _ _ (λ _ _, True)); [|done].
    intros _. by apply returns_emit.
  - intros _ es1 _. by apply returns_ret.
Qed.

Lemma traverse_ok {A B} (f : A → result B) (l : list A) :
  Forall (λ x, ∃ y, f x = Ok y) l → ∃ ys, traverse f l = Ok ys.
Proof.
  induction 1 as [|x l [y Hy] _ [ys IH]]; simpl; [eauto|].
  rewrite Hy, IH. eauto.
Qed.

Lemma csv_written_app (es1 es2 : list event) :
  csv_written (es1 ++ es2) = csv_written es1 ++ csv_written es2.
Proof. unfold csv_written. apply omap_app. Qed.

(** ** The summary stage *)

(** The summary stage completes when the table has [year] and [month]
    whenever it has the columns of the monthly revenue.  It then writes the
    monthly revenue and the top products whenever their columns are present,
    and always the metrics. *)
Lemma create_summary_tables_returns
    (sort : string → list (nat * Row) → list (nat * Row)) (d : DataFrame) :
  (has_column "total_value" d && has_column "invoice_date" d = true →
   has_column "year" d && has_column "month" d = true) →
  returns (create_summary_tables sort d)
    (λ _ es,
       (has_column "total_value" d && has_column "invoice_date" d = true →
        ("revenue_by_month.csv", (rows (monthly_revenue_table d)).*2)
        ∈ csv_written es)
       ∧ (has_column "total_value" d && has_column "description" d = true →
          ("top10_products_by_sales.csv", (rows (top_products_table sort d)).*2)
          ∈ csv_written es)
       ∧ ("overall_metrics.csv", (rows (metrics_table d)).*2)
         ∈ csv_written es).
Proof.
  intros Hym tr.
  unfold create_summary_tables, bind, to_csv, emit, ret, when, lift.
  set (monthly_revenue := monthly_revenue_table d).
  set (top_products := top_products_table sort d).
  set (metrics := metrics_table d).
  destruct (has_column "total_value" d && has_column "invoice_date" d) eqn:E1;
    [rewrite (Hym eq_refl)|];
    destruct (has_column "total_value" d && has_column "description" d) eqn:E2;
    repeat match goal with
           | |- context [if ?b then _ else _] => destruct b
           end;
    cbv beta iota delta [ret];
    (eexists tt, _; split; [rewrite <- ?app_assoc; reflexivity|]);
    simpl; repeat split; intros; rewrite ?elem_of_cons; auto 10; done.
Qed.

(** ** Side artifacts *)

(** C5, as stated, fails: when no row survives, the monthly revenue and the
    top products are written with no data row. *)
Lemma empty_summaries_counterexample :
  ("revenue_by_month.csv", []) ∈ csv_written (Sample.run no_valid_rows false).2
  ∧ ("top10_products_by_sales.csv", [])
    ∈ csv_written (Sample.run no_valid_rows false).2.
Proof. split; apply (bool_decide_unpack _); vm_compute; exact I. Qed.

(** C5, amended. In every run the duplicate log and the outlier log, when
    written, have at least one row, and the metrics table has its two rows.
    The summary stage writes the monthly revenue and the top products
    whenever the columns they need are present, whatever their number of
    rows, and always writes the metrics. *)
Theorem side_artifacts
    (parse_datetime : list cell → cell → option Timestamp)
    (parse_numeric : cell → option Qc)
    (float_of_str : string → option float)
    (str_of_num : Qc → string) (str_of_date : Timestamp → string)
    (sort_values_desc : string → list (nat * Row) → list (nat * Row))
    (df : DataFrame) (remove : bool) :
  let tr := (clean_and_analyze parse_datetime parse_numeric float_of_str
               str_of_num str_of_date sort_values_desc df remove []).2 in
  (∀ body, ("duplicates_logged.csv", body) ∈ csv_written tr → body ≠ [])
  ∧ (∀ body, ("outliers_logged.csv", body) ∈ csv_written tr → body ≠ [])
  ∧ (∀ body, ("overall_metrics.csv", body) ∈ csv_written tr →
             length body = 2%nat)
  ∧ ∀ d tr0,
      (has_column "total_value" d && has_column "invoice_date" d = true →
       has_column "year" d && has_column "month" d = true) →
      ∃ es,
        create_summary_tables sort_values_desc d tr0 = (Ok tt, tr0 ++ es)
        ∧ (has_column "total_value" d && has_column "invoice_date" d = true →
           ("revenue_by_month.csv", (rows (monthly_revenue_table d)).*2)
           ∈ csv_written es)
        ∧ (has_column "total_value" d && has_column "description" d = true →
           ("top10_products_by_sales.csv",
            (rows (top_products_table sort_values_desc d)).*2)
           ∈ csv_written es)
        ∧ ("overall_metrics.csv", (rows (metrics_table d)).*2)
          ∈ csv_written es.
Proof.
  intros tr.
  set (I := λ e, match e with
                 | ToCsv path _ body =>
                     (path = "duplicates_logged.csv"
                      ∨ path = "outliers_logged.csv" → body ≠ [])
                     ∧ (path = "overall_metrics.csv" → length body = 2%nat)
                 | SaveFig _ => True
                 end).
  assert (Forall I tr) as Hall.
  { assert (triple I (clean_and_analyze parse_datetime parse_numeric
                        float_of_str str_of_num str_of_date sort_values_desc
                        df remove) (λ _, True)) as Htriple.
    { unfold clean_and_analyze. eapply triple_bind.
      - apply (triple_clean _ _ _ _ _ I (λ _, True)); try done;
          intros header body Hne; (split; [done|intros [=]]).
      - intros d _. eapply triple_bind.
        + apply triple_to_csv. split; [intros [[=]|[=]]|intros [=]].
        + intros _ _. apply triple_create_summary_tables.
          * intros header body. split; [intros [[=]|[=]]|intros [=]].
          * intros header body. split; [intros [[=]|[=]]|intros [=]].
          * intros header body Hlen. split; [intros [[=]|[=]]|done].
          * done. }
    by destruct (Htriple [] (Forall_nil_2 _)). }
  rewrite Forall_forall in Hall.
  split; [|split; [|split]].
  - intros body Hin. apply csv_written_event in Hin as [header Hin].
    apply (Hall _ Hin). by left.
  - intros body Hin. apply csv_written_event in Hin as [header Hin].
    apply (Hall _ Hin). by right.
  - intros body Hin. apply csv_written_event in Hin as [header Hin].
    by apply (Hall _ Hin).
  - intros d tr0 Hym.
    destruct (create_summary_tables_returns sort_values_desc d Hym tr0)
      as ([] & es & Hrun & H). by exists es.
Qed.

(** ** The type coercer *)

Section Coercion.

Context (parse_datetime : list cell → cell → option Timestamp)
        (parse_numeric : cell → option Qc).

Lemma map_rows_id (l : list (nat * Row)) : map (λ ir, (ir.1, ir.2)) l = l.
Proof. etrans; [|apply map_id]. apply map_ext. by intros []. Qed.

Lemma convert_dtypes_rows (df : DataFrame) :
  rows (convert_dtypes parse_datetime parse_numeric df)
  = map (λ ir, (ir.1, convert_row parse_datetime parse_numeric df ir.2)) (rows df).
Proof.
  unfold convert_dtypes, convert_row, to_datetime, to_numeric.
  destruct (has_column "invoice_date" df) eqn:Ed;
    repeat (rewrite has_column_assign, bool_decide_eq_false_2, orb_false_r
              by done);
    destruct (has_column "quantity" df) eqn:Eq;
    repeat (rewrite has_column_assign, bool_decide_eq_false_2, orb_false_r
              by done);
    destruct (has_column "unit_price" df) eqn:Ep;
    rewrite ?assign_smap_rows, ?map_map; try reflexivity.
  by rewrite map_rows_id.
Qed.

Lemma convert_dtypes_index (df : DataFrame) :
  index (convert_dtypes parse_datetime parse_numeric df) = index df.
Proof. unfold index. by rewrite convert_dtypes_rows, map_map. Qed.

Lemma convert_row_invoice_no (df : DataFrame) (r : Row) :
  convert_row parse_datetime parse_numeric df r !!! "invoice_no" = r !!! "invoice_no".
Proof.
  unfold convert_row.
  destruct (has_column "invoice_date" df), (has_column "quantity" df),
           (has_column "unit_price" df);
    by rewrite ?lookup_total_insert_ne by done.
Qed.

Lemma convert_row_invoice_date (df : DataFrame) (r : Row) :
  has_column "invoice_date" df = true →
  convert_row parse_datetime parse_numeric df r !!! "invoice_date"
  = coerce_date parse_datetime (column "invoice_date" df).*2 (r !!! "invoice_date").
Proof.
  intros Hd. unfold convert_row. rewrite Hd.
  destruct (has_column "quantity" df), (has_column "unit_price" df);
    rewrite ?lookup_total_insert_ne by done;
    by rewrite lookup_total_insert_eq.
Qed.

Lemma convert_row_quantity (df : DataFrame) (r : Row) :
  has_column "quantity" df = true →
  convert_row parse_datetime parse_numeric df r !!! "quantity" = coerce_number parse_numeric (r !!! "quantity").
Proof.
  intros Hq. unfold convert_row. rewrite Hq.
  destruct (has_column "invoice_date" df), (has_column "unit_price" df);
    rewrite ?lookup_total_insert_ne by done;
    rewrite lookup_total_insert_eq;
    by rewrite ?lookup_total_insert_ne by done.
Qed.

Lemma convert_row_unit_price (df : DataFrame) (r : Row) :
  has_column "unit_price" df = true →
  convert_row parse_datetime parse_numeric df r !!! "unit_price" = coerce_number parse_numeric (r !!! "unit_price").
Proof.
  intros Hp. unfold convert_row. rewrite Hp.
  destruct (has_column "invoice_date" df), (has_column "quantity" df);
    rewrite lookup_total_insert_eq;
    by rewrite ?lookup_total_insert_ne by done.
Qed.

(** A row passes the filter after coercion when its invoice number is not
    missing and its invoice date parses. *)
Lemma valid_after_coercion (df : DataFrame) (r : Row) :
  valid_invoice df (convert_row parse_datetime parse_numeric df r) ↔
  (has_column "invoice_no" df = true → isna (r !!! "invoice_no") = false)
  ∧ (has_column "invoice_date" df = true →
     parse_datetime (column "invoice_date" df).*2 (r !!! "invoice_date")
     ≠ None).
Proof.
  unfold valid_invoice. rewrite convert_row_invoice_no.
  destruct (has_column "invoice_date" df) eqn:Ed.
  - rewrite convert_row_invoice_date by done. unfold coerce_date.
    destruct (parse_datetime _ _); simpl; intuition congruence.
  - intuition congruence.
Qed.

End Coercion.

(** ** Runs of the whole pipeline that complete *)

Lemma has_year_month_closed : flag_closed has_year_month.
Proof.
  split; [done|].
  intros name s d Hin HT. unfold has_year_month in *.
  rewrite !has_column_assign.
  apply elem_of_cons in Hin as [->|Hin];
    [|apply elem_of_cons in Hin as [->|Hin]; [|by apply elem_of_nil in Hin]];
    simpl; rewrite !orb_false_r; exact HT.
Qed.

Lemma has_year_month_add_derived_columns (d : DataFrame) :
  has_year_month (add_derived_columns d).
Proof.
  unfold has_year_month, add_derived_columns.
  set (d1 := if has_column "quantity" d && has_column "unit_price" d
             then _ else d).
  destruct (has_column "invoice_date" d1) eqn:Ed.
  - intros _. rewrite !has_column_assign. simpl.
    by rewrite !orb_true_r.
  - rewrite Ed, andb_false_r. done.
Qed.

Section Completion.

Context (parse_datetime : list cell → cell → option Timestamp)
        (parse_numeric : cell → option Qc)
        (float_of_str : string → option float)
        (str_of_num : Qc → string)
        (str_of_date : Timestamp → string)
        (sort_values_desc : string → list (nat * Row) → list (nat * Row)).

Lemma customer_converts_stable (names : list string) :
  "customer_id" ∉ names → stable (customer_converts float_of_str) names.
Proof.
  apply (stable_on_column (λ c, ∃ c', astype_float64 float_of_str c = Ok c')).
Qed.

Lemma convert_dtypes_Forall (P : Row → Prop) (df : DataFrame) :
  stable P ["invoice_date"; "quantity"; "unit_price"] →
  Forall (λ ir, P ir.2) (rows df) →
  Forall (λ ir, P ir.2) (rows (convert_dtypes parse_datetime parse_numeric df)).
Proof.
  intros HP H. rewrite convert_dtypes_rows. apply Forall_map.
  eapply Forall_impl; [exact H|]. intros [i r] Hr. simpl in *.
  unfold convert_row.
  destruct (has_column "invoice_date" df), (has_column "quantity" df),
           (has_column "unit_price" df);
    repeat (apply HP; [in_names|]); done.
Qed.

Lemma handle_missing_values_ok (d : DataFrame) :
  (has_column "customer_id" d = true →
   Forall (λ ir, (customer_converts float_of_str) ir.2) (rows d)) →
  ∃ d', handle_missing_values float_of_str str_of_num str_of_date d = Ok d'.
Proof.
  intros Hconv. unfold handle_missing_values.
  set (d2 := if has_column "description" d then _ else d).
  assert (has_column "customer_id" d2 = has_column "customer_id" d) as Hhas.
  { unfold d2. destruct (has_column "description" d); [|done].
    rewrite !has_column_assign. simpl. by rewrite !orb_false_r. }
  rewrite Hhas. destruct (has_column "customer_id" d) eqn:Ec; [|eauto].
  assert (Forall (λ ir, (customer_converts float_of_str) ir.2) (rows d2)) as Hd2.
  { unfold d2. destruct (has_column "description" d); [|auto].
    do 2 (apply assign_Forall;
          [intros r v; apply customer_converts_stable with (names := ["description"]);
           [not_in_names|in_names]|]).
    auto. }
  destruct (traverse_ok
              (λ lv : nat * cell,
                 match astype_float64 float_of_str lv.2 with
                 | Ok c => Ok (lv.1, c)
                 | Raise e => Raise e
                 end) (column "customer_id" d2)) as [s Hs].
  { unfold column. apply Forall_map.
    eapply Forall_impl; [exact Hd2|]. intros [i r] [c Hc]. simpl in *.
    rewrite Hc. eauto. }
  rewrite Hs. eauto.
Qed.

Lemma clean_returns (df : DataFrame) (remove : bool) :
  (has_column "customer_id" df = true →
   Forall (λ ir, (customer_converts float_of_str) ir.2) (rows df)) →
  returns (clean parse_datetime parse_numeric float_of_str str_of_num
             str_of_date df remove)
          (λ d _, has_year_month d).
Proof.
  intros Hconv.
  apply (returns_weaken _ (λ d _, True ∧ has_year_month d)); [|by intros ? ? []].
  apply returns_triple.
  - unfold clean.
    destruct (handle_missing_values_ok
                (drop_invalid_invoices
                   (convert_dtypes parse_datetime parse_numeric df)))
      as [d1 Hd1].
    { unfold has_column.
      rewrite columns_drop_invalid_invoices, columns_convert_dtypes.
      intros Hc. rewrite drop_invalid_invoices_rows.
      apply (Forall_sublist _ _ _ (sublist_filter _ _)).
      apply convert_dtypes_Forall; [|by apply Hconv].
      apply customer_converts_stable. not_in_names. }
    rewrite Hd1.
    eapply (returns_bind _ _ (λ _ _, True)); [by apply returns_lift|].
    intros d _ _. eapply returns_bind; [apply deduplicate_and_log_returns|].
    intros d' es ->. eapply returns_weaken; [apply flag_returns|done].
  - apply triple_clean; try done; [apply has_year_month_closed|].
    intros df1 _. apply has_year_month_add_derived_columns.
Qed.

(** The run completes and writes the cleaned table when no customer
    identifier makes the cast raise. *)
Lemma clean_and_analyze_returns (df : DataFrame) (remove : bool) :
  (has_column "customer_id" df = true →
   Forall (λ ir, (customer_converts float_of_str) ir.2) (rows df)) →
  ∃ tr,
    clean_and_analyze parse_datetime parse_numeric float_of_str str_of_num
      str_of_date sort_values_desc df remove [] = (Ok tt, tr)
    ∧ ∃ body, ("retail_cleaned.csv", body) ∈ csv_written tr.
Proof.
  intros Hconv.
  assert (returns (clean_and_analyze parse_datetime parse_numeric float_of_str
                     str_of_num str_of_date sort_values_desc df remove)
            (λ _ es, ∃ body, ("retail_cleaned.csv", body) ∈ csv_written es))
    as Hreturns.
  { unfold clean_and_analyze. eapply returns_bind; [by apply clean_returns|].
    intros d es1 Hd. cbv beta in Hd. eapply returns_bind.
    - apply (returns_emit _ (λ _ es, es = [ToCsv "retail_cleaned.csv"
                                            (columns d) (rows d).*2])).
      reflexivity.
    - intros _ es2 ->. eapply returns_weaken.
      + by apply create_summary_tables_returns.
      + intros _ es3 _. exists (rows d).*2.
        rewrite !csv_written_app, !elem_of_app. right. left.
        simpl. by left. }
  destruct (Hreturns []) as ([] & es & Hrun & Hbody). by exists es.
Qed.

End Completion.

(** ** Malformed values *)

(** C6, as stated, fails: the row whose date does not parse is not in the
    cleaned output, and the customer identifier that is not a number makes
    the run raise. *)
Lemma malformed_values_counterexample :
  (Sample.parse_datetime [Str "not a date"] (Str "not a date") = None
   ∧ ("retail_cleaned.csv", []) ∈ csv_written (Sample.run bad_date false).2)
  ∧ (Sample.float_of_str "abc" = None
     ∧ Sample.run bad_customer false = (Raise ValueError, [])).
Proof.
  split; split; try (vm_compute; reflexivity).
  apply (bool_decide_unpack _). vm_compute. exact I.
Qed.

(** C6, amended. The Type Coercer keeps every row and puts the missing
    marker where a date, a quantity or a unit price does not parse.  After
    it the Validity Filter keeps a row exactly when its invoice number is
    not missing and its invoice date parsed, so a quantity or unit price
    that does not parse costs no row, and a date that does not parse costs
    the row.  No such value makes the run raise: the run completes and
    writes the cleaned table whenever the cast of the customer identifiers
    does not raise. *)
Theorem malformed_values_recovered
    (parse_datetime : list cell → cell → option Timestamp)
    (parse_numeric : cell → option Qc)
    (float_of_str : string → option float)
    (str_of_num : Qc → string) (str_of_date : Timestamp → string)
    (sort_values_desc : string → list (nat * Row) → list (nat * Row))
    (df : DataFrame) :
  let converted := convert_dtypes parse_datetime parse_numeric df in
  let convert_row := convert_row parse_datetime parse_numeric df in
  rows converted = map (λ ir, (ir.1, convert_row ir.2)) (rows df)
  ∧ (∀ r, has_column "invoice_date" df = true →
          convert_row r !!! "invoice_date"
          = coerce_date parse_datetime (column "invoice_date" df).*2
              (r !!! "invoice_date"))
  ∧ (∀ r, has_column "quantity" df = true →
          convert_row r !!! "quantity"
          = coerce_number parse_numeric (r !!! "quantity"))
  ∧ (∀ r, has_column "unit_price" df = true →
          convert_row r !!! "unit_price"
          = coerce_number parse_numeric (r !!! "unit_price"))
  ∧ (∀ series c, parse_datetime series c = None →
                 coerce_date parse_datetime series c = NaN)
  ∧ (∀ c, parse_numeric c = None → coerce_number parse_numeric c = NaN)
  ∧ rows (drop_invalid_invoices converted)
    = filter (λ ir, valid_invoice df ir.2) (rows converted)
  ∧ (∀ r, valid_invoice df (convert_row r) ↔
          (has_column "invoice_no" df = true → isna (r !!! "invoice_no") = false)
          ∧ (has_column "invoice_date" df = true →
             parse_datetime (column "invoice_date" df).*2 (r !!! "invoice_date")
             ≠ None))
  ∧ ∀ remove,
      (has_column "customer_id" df = true →
       Forall (λ ir, customer_converts float_of_str ir.2) (rows df)) →
      ∃ tr,
        clean_and_analyze parse_datetime parse_numeric float_of_str str_of_num
          str_of_date sort_values_desc df remove [] = (Ok tt, tr)
        ∧ ∃ body, ("retail_cleaned.csv", body) ∈ csv_written tr.
Proof.
  intros converted convert_row.
  split; [apply convert_dtypes_rows|].
  split; [intros r; apply convert_row_invoice_date|].
  split; [intros r; apply convert_row_quantity|].
  split; [intros r; apply convert_row_unit_price|].
  split; [intros series c Hc; unfold coerce_date; by rewrite Hc|].
  split; [intros c Hc; unfold coerce_number; by rewrite Hc|].
  split.
  { rewrite drop_invalid_invoices_rows. apply list_filter_iff.
    intros [i r]. unfold valid_invoice, converted.
    by rewrite !has_column_convert_dtypes. }
  split; [intros r; apply valid_after_coercion|].
  intros remove. apply clean_and_analyze_returns.
Qed.

(** ** Index labels stay distinct *)

Lemma index_assign_sublist (name : string) (s : Series) (d : DataFrame) :
  sublist (index (assign name s d)) (index d).
Proof.
  unfold index, assign. simpl. generalize (rows d). intros l. revert s.
  induction l as [|x l IH]; intros [|y s]; simpl; try constructor.
  - apply sublist_nil_l.
  - apply IH.
Qed.

Lemma NoDup_index_closed : table_closed (λ d, NoDup (index d)).
Proof.
  split.
  - intros mask d Hnd. eapply sublist_NoDup; [exact Hnd|].
    unfold index. apply (fmap_sublist fst), select_sublist.
  - intros name s d Hnd. eapply sublist_NoDup; [exact Hnd|].
    apply index_assign_sublist.
Qed.

Lemma read_csv_index_NoDup (header : list string) (records : list Row) :
  NoDup (index (read_csv header records)).
Proof.
  unfold index, read_csv. simpl.
  change (map fst ?l) with (fst <$> l). rewrite fmap_imap.
  rewrite (imap_ext _ (λ i _, i)) by done.
  rewrite (imap_seq_0 records (λ i, i)), list_fmap_id. apply NoDup_seq.
Qed.

(** The table handed to the outlier detector has distinct labels when the
    table read has. *)
Lemma stages_closed (T : DataFrame → Prop)
    (parse_datetime : list cell → cell → option Timestamp)
    (parse_numeric : cell → option Qc)
    (float_of_str : string → option float)
    (str_of_num : Qc → string) (str_of_date : Timestamp → string)
    (df df1 : DataFrame) :
  table_closed T → T df →
  handle_missing_values float_of_str str_of_num str_of_date
    (drop_invalid_invoices (convert_dtypes parse_datetime parse_numeric df))
  = Ok df1 →
  T (drop_duplicates
       (add_derived_columns (normalize_categorical str_of_num str_of_date df1))).
Proof.
  intros [Hselect Hassign] HT Hdf1.
  apply Hselect.
  assert (T (convert_dtypes parse_datetime parse_numeric df)) as H1.
  { unfold convert_dtypes.
    repeat match goal with
           | |- context [if ?b then _ else _] => destruct b
           end; repeat apply Hassign; done. }
  assert (T (drop_invalid_invoices
               (convert_dtypes parse_datetime parse_numeric df))) as H2.
  { revert H1. generalize (convert_dtypes parse_datetime parse_numeric df).
    intros d Hd. unfold drop_invalid_invoices.
    destruct (has_column "invoice_no" d), (has_column "invoice_date" d);
      simpl; try done; by apply Hselect. }
  assert (T df1) as H3.
  { revert H2 Hdf1.
    generalize (drop_invalid_invoices
                  (convert_dtypes parse_datetime parse_numeric df)).
    intros d Hd. unfold handle_missing_values.
    repeat match goal with
           | |- context [if ?b then _ else _] => destruct b
           end; intros Heq; repeat case_match; simplify_eq;
      repeat apply Hassign; done. }
  assert (T (normalize_categorical str_of_num str_of_date df1)) as H4.
  { unfold normalize_categorical.
    repeat match goal with
           | |- context [if ?b then _ else _] => destruct b
           end; repeat apply Hassign; done. }
  unfold add_derived_columns.
  repeat match goal with
         | |- context [if ?b then _ else _] => destruct b
         end; repeat apply Hassign; done.
Qed.

(** ** The theorems at concrete tables *)

Lemma nine_quantities_index : NoDup (index nine_quantities).
Proof. apply read_csv_index_NoDup. Qed.


Lemma nine_quantities_reversed_index : NoDup (index nine_quantities_reversed).
Proof.
  change (NoDup (fst <$> reverse (rows nine_quantities))).
  rewrite fmap_reverse, reverse_Permutation. apply nine_quantities_index.
Qed.

Lemma nine_quantities_reversed_rows :
  (rows nine_quantities).*2 ≡ₚ (rows nine_quantities_reversed).*2.
Proof.
  change ((rows nine_quantities).*2 ≡ₚ (reverse (rows nine_quantities)).*2).
  by rewrite fmap_reverse, reverse_Permutation.
Qed.

Lemma outlier_flagging_order_independent_witness :
  columns nine_quantities = columns nine_quantities_reversed
  ∧ NoDup (index nine_quantities)
  ∧ NoDup (index nine_quantities_reversed)
  ∧ (rows nine_quantities).*2 ≡ₚ (rows nine_quantities_reversed).*2
  ∧ ∃ d1 d2 tr1' tr2',
      flag_and_optionally_remove_outliers nine_quantities true [] = (Ok d1, tr1')
      ∧ flag_and_optionally_remove_outliers nine_quantities_reversed true []
        = (Ok d2, tr2')
      ∧ columns d1 = columns d2
      ∧ (rows d1).*2 ≡ₚ (rows d2).*2.
Proof.
  split; [reflexivity|].
  split; [apply nine_quantities_index|].
  split; [apply nine_quantities_reversed_index|].
  split; [apply nine_quantities_reversed_rows|].
  apply (outlier_flagging_order_independent
           nine_quantities nine_quantities_reversed true [] [] eq_refl
           nine_quantities_index nine_quantities_reversed_index
           nine_quantities_reversed_rows).
Defined.


(** * Further properties *)

(** ** The validity filter, again *)

(** X1. Filtering twice is filtering once: the Validity Filter returns its
    own output unchanged. *)
Theorem drop_invalid_invoices_idempotent (df : DataFrame) :
  drop_invalid_invoices (drop_invalid_invoices df) = drop_invalid_invoices df.
Proof.
  assert (∀ cols d, dropna cols (dropna cols d) = dropna cols d) as Hdropna.
  { intros cols d. unfold dropna, select. simpl. f_equal.
    rewrite !boolean_index_map, list_filter_filter.
    apply list_filter_iff. intros ir. tauto. }
  unfold drop_invalid_invoices at 1. unfold has_column.
  rewrite columns_drop_invalid_invoices.
  fold (has_column "invoice_no" df). fold (has_column "invoice_date" df).
  unfold drop_invalid_invoices.
  destruct (has_column "invoice_no" df), (has_column "invoice_date" df);
    simpl; by rewrite ?Hdropna.
Qed.

(** ** The stages only drop rows *)

Lemma sublist_index_closed (df : DataFrame) :
  table_closed (λ d, sublist (index d) (index df)).
Proof.
  split.
  - intros mask d Hd. etrans; [|exact Hd].
    unfold index. apply (fmap_sublist fst), select_sublist.
  - intros name s d Hd. etrans; [|exact Hd]. apply index_assign_sublist.
Qed.

(** A property kept by every selection and assignment holds of the table
    with its derived columns when it holds of the table read. *)
Lemma stages_closed_derived (T : DataFrame → Prop)
    (parse_datetime : list cell → cell → option Timestamp)
    (parse_numeric : cell → option Qc)
    (float_of_str : string → option float)
    (str_of_num : Qc → string) (str_of_date : Timestamp → string)
    (df df1 : DataFrame) :
  table_closed T → T df →
  handle_missing_values float_of_str str_of_num str_of_date
    (drop_invalid_invoices (convert_dtypes parse_datetime parse_numeric df))
  = Ok df1 →
  T (add_derived_columns (normalize_categorical str_of_num str_of_date df1)).
Proof.
  intros [Hselect Hassign] HT Hdf1.
  assert (T (convert_dtypes parse_datetime parse_numeric df)) as H1.
  { unfold convert_dtypes.
    repeat match goal with
           | |- context [if ?b then _ else _] => destruct b
           end; repeat apply Hassign; done. }
  assert (T (drop_invalid_invoices
               (convert_dtypes parse_datetime parse_numeric df))) as H2.
  { revert H1. generalize (convert_dtypes parse_datetime parse_numeric df).
    intros d Hd. unfold drop_invalid_invoices.
    destruct (has_column "invoice_no" d), (has_column "invoice_date" d);
      simpl; try done; by apply Hselect. }
  assert (T df1) as H3.
  { revert H2 Hdf1.
    generalize (drop_invalid_invoices
                  (convert_dtypes parse_datetime parse_numeric df)).
    intros d Hd. unfold handle_missing_values.
    repeat match goal with
           | |- context [if ?b then _ else _] => destruct b
           end; intros Heq; repeat case_match; simplify_eq;
      repeat apply Hassign; done. }
  assert (T (normalize_categorical str_of_num str_of_date df1)) as H4.
  { unfold normalize_categorical.
    repeat match goal with
           | |- context [if ?b then _ else _] => destruct b
           end; repeat apply Hassign; done. }
  unfold add_derived_columns.
  repeat match goal with
         | |- context [if ?b then _ else _] => destruct b
         end; repeat apply Hassign; done.
Qed.

Lemma table_closed_flag_closed (T : DataFrame → Prop) :
  table_closed T → flag_closed T.
Proof. intros [H1 H2]. split; [done|]. intros name s d _. apply H2. Qed.

(** X2. The stages between reading and writing create no row and move
    none: the index labels of the cleaned table are a subsequence of the
    labels of the table read, and they are distinct when those are. *)
Theorem cleaned_table_subsequence
    (parse_datetime : list cell → cell → option Timestamp)
    (parse_numeric : cell → option Qc)
    (float_of_str : string → option float)
    (str_of_num : Qc → string) (str_of_date : Timestamp → string)
    (df : DataFrame) (remove : bool) :
  triple (λ _, True)
    (clean parse_datetime parse_numeric float_of_str str_of_num str_of_date
       df remove)
    (λ d, sublist (index d) (index df)
          ∧ (length (rows d) ≤ length (rows df))%nat
          ∧ (NoDup (index df) → NoDup (index d))).
Proof.
  eapply triple_weaken.
  - apply (triple_clean _ _ _ _ _ (λ _, True)
             (λ d, sublist (index d) (index df))); try done.
    + apply table_closed_flag_closed, sublist_index_closed.
    + intros df1 Hdf1.
      by apply (stages_closed_derived _ parse_datetime parse_numeric
                  float_of_str str_of_num str_of_date df df1
                  (sublist_index_closed df)).
  - intros d Hd. cbv beta in Hd. split; [done|]. split.
    + apply sublist_length in Hd. unfold index in Hd.
      by rewrite !length_map in Hd.
    + intros Hnd. by eapply sublist_NoDup.
Qed.

(** ** When the run raises *)


Section Raising.

Context (parse_datetime : list cell → cell → option Timestamp)
        (parse_numeric : cell → option Qc)
        (float_of_str : string → option float)
        (str_of_num : Qc → string)
        (str_of_date : Timestamp → string)
        (sort_values_desc : string → list (nat * Row) → list (nat * Row)).

(** The customer identifiers are not touched by the description policy. *)
Lemma handle_missing_values_customer_column (d : DataFrame) :
  let d2 :=
    if has_column "description" d
    then
      let d1 := assign "description"
                  (smap (fillna (Str "Unknown")) (column "description" d)) d in
      assign "description"
        (smap (λ c, str_method PyStr.strip (astype_str str_of_num str_of_date c))
              (column "description" d1)) d1
    else d in
  column "customer_id" d2 = column "customer_id" d
  ∧ has_column "customer_id" d2 = has_column "customer_id" d.
Proof.
  cbv zeta. destruct (has_column "description" d); [|done]. split.
  - by rewrite !column_assign_smap_ne.
  - rewrite !has_column_assign. simpl. by rewrite !orb_false_r.
Qed.

Lemma handle_missing_values_raises (d : DataFrame) (e : exn) :
  handle_missing_values float_of_str str_of_num str_of_date d = Raise e →
  has_column "customer_id" d = true
  ∧ (e = ValueError ∨ e = TypeError)
  ∧ Exists (λ ir, astype_float64 float_of_str (ir.2 !!! "customer_id") = Raise e)
           (rows d).
Proof.
  unfold handle_missing_values.
  destruct (handle_missing_values_customer_column d) as [Hcol Hhas].
  cbv zeta in Hcol, Hhas. rewrite Hhas, Hcol.
  destruct (has_column "customer_id" d); [|done].
  intros Hraise. split; [done|].
  unfold column in Hraise. revert Hraise.
  induction (rows d) as [|[i r] l IH]; simpl; [done|].
  destruct (astype_float64 float_of_str (r !!! "customer_id")) as [c|e'] eqn:E.
  - destruct (traverse _ (map _ l)) as [s|e'] eqn:E'; [done|].
    intros [= ->]. destruct IH as [He Hex]; [done|].
    split; [done|]. by apply Exists_cons_tl.
  - intros [= ->]. split.
    + unfold astype_float64 in E. repeat case_match; simplify_eq; auto.
    + by apply Exists_cons_hd.
Qed.




End Raising.

(** ** Quartiles lie in order *)














Lemma interpolate_constant (l : list Qc) (q v : Qc) :
  l ≠ [] → Forall (λ x, x = v) l → interpolate l q = Some v.
Proof.
  intros Hne Hall. destruct l as [|x0 l']; [done|].
  assert (∀ i d, d = v → nth i (x0 :: l') d = v) as Hnth.
  { intros i d ->. destruct (nth_in_or_default i (x0 :: l') v) as [Hin|Heq];
      [|done].
    rewrite Forall_forall in Hall. by apply Hall, list_elem_of_In. }
  assert (x0 = v) as -> by by inversion Hall.
  unfold interpolate. rewrite !Hnth by (by rewrite ?Hnth). f_equal. ring.
Qed.


Lemma numeric_values_elem (series : Series) (l : nat) (x : Qc) :
  (l, Num x) ∈ series → x ∈ numeric_values series.
Proof.
  intros Hin. unfold numeric_values. apply list_elem_of_omap.
  by exists (l, Num x).
Qed.

Lemma mask_all_false (series : Series) (bounds : float * float) :
  (∀ l c, (l, c) ∈ series → outside bounds c = false) →
  map (λ lv : nat * cell, (lv.1, outside bounds lv.2)) series
  = map (λ lv, (lv.1, false)) series.
Proof.
  intros H. apply map_ext_in. intros [l c] Hin. simpl.
  f_equal. apply (H l). by apply list_elem_of_In.
Qed.


(** X5. A series without a number gets NaN bounds and no flag; a series
    whose numbers are all the same value gets that value as both bounds and
    no flag. *)
Theorem detect_outliers_iqr_degenerate (series : Series) :
  (numeric_values series = [] →
   detect_outliers_iqr series
   = (map (λ lv, (lv.1, false)) series, None, None))
  ∧ ∀ v, numeric_values series ≠ [] →
         Forall (λ x, x = v) (numeric_values series) →
         detect_outliers_iqr series
         = (map (λ lv, (lv.1, false)) series, Some v, Some v).
Proof.
  split.
  - intros Hnil. rewrite detect_outliers_iqr_eq, Hnil.
    change (iqr_bounds []) with (@None Qc, @None Qc). cbn [fst snd].
    f_equal. f_equal. apply mask_all_false. intros l c _.
    unfold outside, flt. simpl. by destruct (as_float c).
  - intros v Hne Hall. rewrite detect_outliers_iqr_eq.
    assert (iqr_bounds (numeric_values series) = (Some v, Some v)) as Hb.
    { unfold iqr_bounds.
      assert (∀ q, interpolate (merge_sort Qcle (numeric_values series)) q
                   = Some v) as Hq.
      { intros q. apply interpolate_constant.
        - intros Heq. apply Hne. apply Permutation_nil_r.
          rewrite <- Heq. by rewrite merge_sort_Permutation.
        - by rewrite merge_sort_Permutation. }
      rewrite !Hq. simpl. f_equal; f_equal; ring. }
    rewrite Hb. cbn [fst snd]. f_equal. f_equal.
    apply mask_all_false. intros l c Hin.
    unfold outside, flt. destruct c as [| |x| |]; simpl; try done.
    apply numeric_values_elem in Hin.
    rewrite Forall_forall in Hall. rewrite (Hall x Hin).
    rewrite !bool_decide_eq_false_2; [done|]. apply Qcle_not_lt, Qcle_refl.
Qed.

(** ** The outlier log and the removal *)

Lemma flag_columns_nonempty (df : DataFrame) :
  (flag_columns df).2 ≠ [] → columns (flag_columns df).1 ≠ [].
Proof.
  assert (∀ name s d, columns (assign name s d) ≠ []) as Hassign.
  { intros name s d. unfold assign. simpl.
    destruct (has_column name d) eqn:E.
    - unfold has_column in E. apply bool_decide_eq_true in E.
      intros Heq. rewrite Heq in E. by apply elem_of_nil in E.
    - by destruct (columns d). }
  unfold flag_columns.
  destruct (has_column "quantity" df);
    match goal with |- context [has_column "unit_price" ?d] =>
      destruct (has_column "unit_price" d) end; cbn [fst snd]; auto.
Qed.

(** The run of the flagging stage: the table it returns and what it
    logs. *)
Lemma flag_run (df : DataFrame) (remove : bool) (tr : list event) :
  let table := (flag_columns df).1 in
  let cols := (flag_columns df).2 in
  let logged := filter (λ ir, flagged cols ir.2 = true) (rows table) in
  let unflagged := filter (λ ir, flagged cols ir.2 = false) (rows table) in
  flag_and_optionally_remove_outliers df remove tr
  = (Ok {| columns := columns table;
           rows := if remove then unflagged else rows table |},
     tr ++ match logged with
           | [] => []
           | _ => [ToCsv "outliers_logged.csv" (columns table) logged.*2]
           end).
Proof.
  intros table cols logged unflagged.
  assert (cols = [] → logged = []) as Hnone.
  { intros Hc. unfold logged. rewrite Hc. generalize (rows table).
    intros l. induction l as [|ir l IH]; [done|].
    rewrite filter_cons_False; [exact IH|]. unfold flagged. simpl. done. }
  rewrite flag_and_optionally_remove_outliers_eq. fold table cols.
  destruct cols as [|c cols'] eqn:Ecols.
  - rewrite (Hnone eq_refl), app_nil_r. unfold ret. f_equal. f_equal.
    destruct table as [cs rs]. simpl. f_equal.
    destruct remove; [|done]. unfold unflagged. simpl.
    symmetry. by apply filter_all.
  - cbv zeta.
    assert (rows (select (any_axis1 (c :: cols') table) table) = logged)
      as Hlog.
    { unfold any_axis1, select. simpl. rewrite boolean_index_map. done. }
    assert (is_empty (select (any_axis1 (c :: cols') table) table)
            = bool_decide (logged = [])) as Hempty.
    { unfold is_empty. rewrite Hlog.
      pose proof (flag_columns_nonempty df) as Hcols.
      fold table in Hcols. change (flag_columns df).2 with cols in Hcols.
      rewrite Ecols in Hcols. simpl.
      destruct (columns table); [by destruct Hcols|].
      by destruct logged. }
    unfold bind, when, to_csv, emit, ret. rewrite Hempty, Hlog.
    assert ((if remove
             then select (map negb (any_axis1 (c :: cols') table)) table
             else table)
            = {| columns := columns table;
                 rows := if remove then unflagged else rows table |}) as ->.
    { destruct remove; [|by destruct table].
      unfold select, any_axis1, unflagged. simpl. f_equal.
      rewrite map_map, boolean_index_map. apply list_filter_iff.
      intros [i r]. simpl. apply negb_true_iff. }
    destruct logged; simpl; [by rewrite app_nil_r|done].
Qed.



(** ** Trimming and title-casing *)

Ltac by_cases_on_char c :=
  destruct c as [[] [] [] [] [] [] [] []]; vm_compute; reflexivity.

Section Strings.

Import PyStr.

Lemma isspace_upper (c : ascii) : isspace (upper c) = isspace c.
Proof. by_cases_on_char c. Qed.

Lemma isspace_lower (c : ascii) : isspace (lower c) = isspace c.
Proof. by_cases_on_char c. Qed.

Lemma iscased_upper (c : ascii) : iscased (upper c) = iscased c.
Proof. by_cases_on_char c. Qed.

Lemma iscased_lower (c : ascii) : iscased (lower c) = iscased c.
Proof. by_cases_on_char c. Qed.

Lemma upper_upper (c : ascii) : upper (upper c) = upper c.
Proof. by_cases_on_char c. Qed.

Lemma lower_lower (c : ascii) : lower (lower c) = lower c.
Proof. by_cases_on_char c. Qed.

Lemma rstrip_rstrip (s : string) : rstrip (rstrip s) = rstrip s.
Proof.
  induction s as [|c s IH]; [done|]. simpl.
  destruct (rstrip s) as [|c' r] eqn:E.
  - destruct (isspace c) eqn:Ec; [done|]. simpl. by rewrite Ec.
  - change (rstrip (String c (String c' r)))
      with (match rstrip (String c' r) with
            | EmptyString =>
                if isspace c then EmptyString else String c EmptyString
            | r' => String c r'
            end).
    by rewrite IH.
Qed.

Lemma lstrip_starts_unspaced (s : string) : starts_unspaced (lstrip s).
Proof.
  induction s as [|c s IH]; [done|]. simpl.
  destruct (isspace c) eqn:E; [done|]. done.
Qed.

Lemma rstrip_starts_unspaced (s : string) :
  starts_unspaced s → starts_unspaced (rstrip s).
Proof.
  destruct s as [|c s]; [done|]. simpl. intros Hc.
  destruct (rstrip s); [by rewrite Hc|done].
Qed.

Lemma lstrip_unspaced (s : string) : starts_unspaced s → lstrip s = s.
Proof. destruct s as [|c s]; [done|]. simpl. by intros ->. Qed.

Lemma strip_starts_unspaced (s : string) : starts_unspaced (strip s).
Proof. apply rstrip_starts_unspaced, lstrip_starts_unspaced. Qed.

Lemma strip_strip (s : string) : strip (strip s) = strip s.
Proof.
  unfold strip at 1. rewrite lstrip_unspaced by apply strip_starts_unspaced.
  apply rstrip_rstrip.
Qed.

Lemma title_from_empty (b : bool) (s : string) :
  title_from b s = EmptyString ↔ s = EmptyString.
Proof. by destruct s. Qed.

Lemma isspace_title_char (b : bool) (c : ascii) :
  isspace (if b then lower c else upper c) = isspace c.
Proof. destruct b; [apply isspace_lower|apply isspace_upper]. Qed.

(** Title-casing goes from left to right and keeps the spaces, so it
    commutes with trimming on the right. *)
Lemma rstrip_title_from (b : bool) (s : string) :
  rstrip (title_from b s) = title_from b (rstrip s).
Proof.
  revert b. induction s as [|c s IH]; intros b; [done|]. simpl.
  rewrite IH, isspace_title_char.
  destruct (rstrip s) as [|c' r] eqn:E; simpl.
  - by destruct (isspace c).
  - done.
Qed.

Lemma title_from_starts_unspaced (b : bool) (s : string) :
  starts_unspaced s → starts_unspaced (title_from b s).
Proof.
  destruct s as [|c s]; [done|]. simpl. by rewrite isspace_title_char.
Qed.

Lemma strip_title_strip (s : string) :
  strip (title (strip s)) = title (strip s).
Proof.
  unfold strip at 1, title.
  rewrite lstrip_unspaced
    by apply title_from_starts_unspaced, strip_starts_unspaced.
  rewrite rstrip_title_from. f_equal. apply rstrip_rstrip.
Qed.

Lemma title_from_title_from (b : bool) (s : string) :
  title_from b (title_from b s) = title_from b s.
Proof.
  revert b. induction s as [|c s IH]; intros b; [done|]. simpl.
  f_equal.
  - destruct b; [apply lower_lower|apply upper_upper].
  - destruct b; rewrite ?iscased_lower, ?iscased_upper; apply IH.
Qed.

Lemma title_title (s : string) : title (title s) = title s.
Proof. apply title_from_title_from. Qed.

End Strings.

(** ** The categorical normalizer, row by row *)

Lemma DataFrame_eq (d1 d2 : DataFrame) :
  columns d1 = columns d2 → rows d1 = rows d2 → d1 = d2.
Proof. destruct d1, d2. simpl. by intros -> ->. Qed.

Section Normalizer.

Import PyStr.

Context (str_of_num : Qc → string) (str_of_date : Timestamp → string).

Lemma columns_normalize_categorical (df : DataFrame) :
  columns (normalize_categorical str_of_num str_of_date df) = columns df.
Proof.
  unfold normalize_categorical.
  destruct (has_column "description" df) eqn:Ed.
  - rewrite has_column_assign. simpl. rewrite orb_false_r.
    destruct (has_column "country" df) eqn:Ec.
    + rewrite !has_column_assign_same; try done;
        rewrite ?has_column_assign; simpl; by rewrite ?Ec, ?orb_false_r.
    + by rewrite has_column_assign_same.
  - destruct (has_column "country" df) eqn:Ec; [|done].
    rewrite !has_column_assign_same; try done.
    rewrite has_column_assign. by rewrite Ec.
Qed.

Lemma normalize_categorical_rows (df : DataFrame) :
  rows (normalize_categorical str_of_num str_of_date df)
  = map (λ ir, (ir.1, normalize_row str_of_num str_of_date df ir.2)) (rows df).
Proof.
  unfold normalize_categorical, normalize_row, normalize_country.
  destruct (has_column "description" df) eqn:Ed;
    rewrite ?has_column_assign; simpl; rewrite ?orb_false_r;
    destruct (has_column "country" df) eqn:Ec;
    rewrite ?assign_smap_rows, ?map_map.
  - apply map_ext. intros [i r]. simpl.
    by rewrite lookup_total_insert_eq, insert_insert_eq.
  - done.
  - apply map_ext. intros [i r]. simpl.
    by rewrite lookup_total_insert_eq, insert_insert_eq.
  - by rewrite map_rows_id.
Qed.

Lemma strip_cell_idempotent (c : cell) :
  let strip_cell c :=
    str_method PyStr.strip (astype_str str_of_num str_of_date c) in
  strip_cell (strip_cell c) = strip_cell c.
Proof. destruct c; simpl; by rewrite strip_strip. Qed.

Lemma normalize_country_idempotent (c : cell) :
  normalize_country str_of_num str_of_date
    (normalize_country str_of_num str_of_date c)
  = normalize_country str_of_num str_of_date c.
Proof.
  assert (∀ s, normalize_country str_of_num str_of_date
                 (normalize_country str_of_num str_of_date (Str s))
               = normalize_country str_of_num str_of_date (Str s)) as Hstr.
  { intros s. unfold normalize_country. simpl.
    destruct (country_map !! title (strip s)) as [v|] eqn:E.
    - apply country_map_lookup in E.
      rewrite !elem_of_cons in E.
      destruct E as [[= _ ->]|[[= _ ->]|[[= _ ->]|E]]];
        [reflexivity..|by apply elem_of_nil in E].
    - simpl. by rewrite strip_title_strip, title_title, E. }
  destruct c; apply Hstr.
Qed.

Lemma normalize_row_idempotent (df : DataFrame) (r : Row) :
  normalize_row str_of_num str_of_date df
    (normalize_row str_of_num str_of_date df r)
  = normalize_row str_of_num str_of_date df r.
Proof.
  pose proof strip_cell_idempotent as Hstrip. cbv zeta in Hstrip.
  unfold normalize_row.
  destruct (has_column "description" df), (has_column "country" df);
    try done.
  - set (r1 := <["description" := _]> r).
    set (r2 := <["country" := _]> r1).
    assert (<["description" :=
                str_method strip
                  (astype_str str_of_num str_of_date (r2 !!! "description"))]>
              r2 = r2) as ->.
    { apply insert_id. unfold r2.
      rewrite lookup_total_insert_ne, lookup_insert_ne by done.
      unfold r1. rewrite lookup_total_insert_eq, Hstrip.
      apply lookup_insert_eq. }
    apply insert_id. unfold r2 at 1 2.
    rewrite lookup_total_insert_eq, normalize_country_idempotent.
    apply lookup_insert_eq.
  - by rewrite lookup_total_insert_eq, insert_insert_eq, Hstrip.
  - by rewrite lookup_total_insert_eq, insert_insert_eq,
      normalize_country_idempotent.
Qed.

(** X7. The Categorical Normalizer is idempotent: a trimmed description
    and a trimmed, title-cased, alias-resolved country are left as they
    are, so normalizing a normalized table changes nothing. *)
Theorem normalize_categorical_idempotent (df : DataFrame) :
  normalize_categorical str_of_num str_of_date
    (normalize_categorical str_of_num str_of_date df)
  = normalize_categorical str_of_num str_of_date df.
Proof.
  apply DataFrame_eq.
  - by rewrite !columns_normalize_categorical.
  - rewrite (normalize_categorical_rows (normalize_categorical _ _ df)).
    rewrite normalize_categorical_rows, map_map.
    apply map_ext. intros [i r]. simpl. f_equal.
    assert (∀ r', normalize_row str_of_num str_of_date
                    (normalize_categorical str_of_num str_of_date df) r'
                  = normalize_row str_of_num str_of_date df r') as ->.
    { intros r'. unfold normalize_row, has_column.
      by rewrite columns_normalize_categorical. }
    apply normalize_row_idempotent.
Qed.

End Normalizer.

(** ** Derived columns *)






(** ** The cleaned table is typed *)


(** The values assigned to a column are the values it holds. *)
Lemma assign_column_Forall (Q : cell → Prop) (name : string) (s : Series)
    (d : DataFrame) :
  Forall (λ lv, Q lv.2) s →
  Forall (λ ir : nat * Row, Q (ir.2 !!! name)) (rows (assign name s d)).
Proof.
  unfold assign. simpl. generalize (rows d). intros l Hs. revert l.
  induction Hs as [|lv s Hlv Hs IH]; intros [|ir l]; simpl; try constructor.
  - simpl. by rewrite lookup_total_insert_eq.
  - apply IH.
Qed.


Section Typed.

Context (parse_datetime : list cell → cell → option Timestamp)
        (parse_numeric : cell → option Qc)
        (float_of_str : string → option float)
        (str_of_num : Qc → string)
        (str_of_date : Timestamp → string)
        (sort_values_desc : string → list (nat * Row) → list (nat * Row)).







End Typed.


(** ** Grouped sums *)






Lemma sum_column_nil (value : string) : sum_column value [] = Q2Qc 0.
Proof. reflexivity. Qed.







(** ** Sorting with an order that is total on the keys at hand *)

Section SortedOn.

Context {A : Type} (R : relation A) `{∀ x y, Decision (R x y)}.
Context (P : A → Prop).
Hypothesis total_on : ∀ x y, P x → P y → R x y ∨ R y x.






End SortedOn.

(** ** The order of group keys *)





(** ** Monthly revenue *)





(** ** The average order value *)




(** ** Column names *)

(** ** Normalizing a name *)

Lemma map_chars_map_chars (f g : ascii → ascii) (s : string) :
  map_chars f (map_chars g s) = map_chars (λ c, f (g c)) s.
Proof. induction s as [|c s IH]; simpl; congruence. Qed.

Lemma map_chars_ext (f g : ascii → ascii) (s : string) :
  (∀ c, f c = g c) → map_chars f s = map_chars g s.
Proof. intros H. induction s as [|c s IH]; simpl; congruence. Qed.

Lemma normalized_eq (c : string) :
  normalized c = map_chars normalized_char (PyStr.strip c).
Proof.
  unfold normalized, replace_char, str_lower.
  by rewrite !map_chars_map_chars.
Qed.

Lemma normalized_char_idempotent (c : ascii) :
  normalized_char (normalized_char c) = normalized_char c.
Proof. by_cases_on_char c. Qed.

Lemma lower_normalized_char (c : ascii) :
  PyStr.lower (normalized_char c) = normalized_char c.
Proof. by_cases_on_char c. Qed.

Lemma isspace_normalized_char (c : ascii) :
  PyStr.isspace c = false → PyStr.isspace (normalized_char c) = false.
Proof. destruct c as [[] [] [] [] [] [] [] []]; vm_compute; congruence. Qed.

Lemma map_chars_starts_unspaced (f : ascii → ascii) (s : string) :
  (∀ c, PyStr.isspace c = false → PyStr.isspace (f c) = false) →
  starts_unspaced s → starts_unspaced (map_chars f s).
Proof. intros Hf. destruct s as [|c s]; simpl; auto. Qed.

Lemma rstrip_map_chars (f : ascii → ascii) (s : string) :
  (∀ c, PyStr.isspace c = false → PyStr.isspace (f c) = false) →
  PyStr.rstrip s = s → PyStr.rstrip (map_chars f s) = map_chars f s.
Proof.
  intros Hf. induction s as [|c s IH]; [done|]. simpl.
  destruct (PyStr.rstrip s) as [|c' r] eqn:E.
  - destruct (PyStr.isspace c) eqn:Ec; [done|]. intros [= <-]. simpl.
    by rewrite Hf.
  - intros [= Hs]. rewrite IH by done. rewrite <- Hs. done.
Qed.

Lemma strip_normalized (c : string) : PyStr.strip (normalized c) = normalized c.
Proof.
  rewrite normalized_eq. unfold PyStr.strip at 1.
  rewrite lstrip_unspaced.
  - apply rstrip_map_chars; [apply isspace_normalized_char|].
    apply rstrip_rstrip.
  - apply map_chars_starts_unspaced; [apply isspace_normalized_char|].
    apply strip_starts_unspaced.
Qed.

Lemma normalized_idempotent (c : string) :
  normalized (normalized c) = normalized c.
Proof.
  rewrite (normalized_eq (normalized c)), strip_normalized, normalized_eq.
  rewrite map_chars_map_chars. apply map_chars_ext.
  apply normalized_char_idempotent.
Qed.

Lemma str_lower_normalized (c : string) :
  str_lower (normalized c) = normalized c.
Proof.
  rewrite normalized_eq. unfold str_lower. rewrite map_chars_map_chars.
  apply map_chars_ext, lower_normalized_char.
Qed.

(** ** The two dictionaries *)

Lemma foldl_insert_lookup (f g : string → string) (l : list string)
    (m : gmap string string) (k : string) :
  Forall (λ c, f c = c) l →
  foldl (λ m c, <[f c := g c]> m) m l !! k
  = if decide (k ∈ l) then Some (g k) else m !! k.
Proof.
  intros Hl. revert m. induction Hl as [|c l Hc Hl IH]; intros m;
    cbn [foldl].
  - by rewrite decide_False by apply not_elem_of_nil.
  - rewrite IH, Hc. destruct (decide (k ∈ l)) as [Hin|Hin].
    + rewrite decide_True; [done|]. by right.
    + destruct (decide (k = c)) as [->|Hne].
      * rewrite decide_True by by left. apply lookup_insert_eq.
      * rewrite decide_False by (rewrite elem_of_cons; tauto).
        by apply lookup_insert_ne.
Qed.

Lemma rename_col_map (cols : list string) :
  rename (foldl (λ m c, <[c := normalized c]> m) ∅ cols) cols
  = map normalized cols.
Proof.
  unfold rename. apply map_ext_in. intros c Hc.
  rewrite (foldl_insert_lookup (λ c, c) normalized)
    by (apply Forall_forall; done).
  rewrite decide_True; [done|]. by apply list_elem_of_In.
Qed.

Lemma cols_lower_lookup (header : list string) (k : string) :
  lowered header →
  foldl (λ m c, <[str_lower c := c]> m) (∅ : gmap string string) header !! k
  = if decide (k ∈ header) then Some k else None.
Proof.
  intros Hl. rewrite (foldl_insert_lookup str_lower (λ c, c)) by done.
  by rewrite lookup_empty.
Qed.

Lemma add_rename_first_present (header : list string)
    (rename_map : gmap string string) (target : string * list string) :
  lowered header →
  add_rename (foldl (λ m c, <[str_lower c := c]> m) ∅ header) rename_map target
  = match first_present header target.2 with
    | Some candidate => <[candidate := target.1]> rename_map
    | None => rename_map
    end.
Proof.
  intros Hl. unfold add_rename, first_present.
  set (cols_lower := foldl _ ∅ header).
  assert (filter (λ candidate, is_Some (cols_lower !! candidate)) target.2
          = filter (λ name, name ∈ header) target.2) as ->.
  { apply list_filter_iff. intros n. unfold cols_lower.
    rewrite cols_lower_lookup by done.
    destruct (decide (n ∈ header)); [by split; eauto|].
    split; [by intros [? ?]|done]. }
  destruct (head _) as [candidate|] eqn:E; [|done].
  assert (candidate ∈ header) as Hin.
  { apply head_Some_elem_of, list_elem_of_filter in E. by destruct E. }
  rewrite lookup_total_alt. unfold cols_lower.
  rewrite cols_lower_lookup by done. by rewrite decide_True.
Qed.

Lemma rename_map_renaming (header : list string) :
  lowered header →
  foldl (add_rename (foldl (λ m c, <[str_lower c := c]> m) ∅ header)) ∅
        candidates
  = renaming header.
Proof.
  intros Hl. unfold renaming.
  assert (∀ gs (m : gmap string string),
            foldl (add_rename
                     (foldl (λ m c, <[str_lower c := c]> m) ∅ header)) m gs
            = foldl (λ m (target : string * list string),
                       match first_present header target.2 with
                       | Some candidate => <[candidate := target.1]> m
                       | None => m
                       end) m gs) as H; [|apply H].
  intros gs. induction gs as [|g gs IH]; intros m; [done|]. cbn [foldl].
  by rewrite add_rename_first_present, IH.
Qed.

Lemma standardize_column_names_eq (cols : list string) :
  standardize_column_names cols
  = rename (renaming (map normalized cols)) (map normalized cols).
Proof.
  unfold standardize_column_names. cbv zeta.
  rewrite rename_col_map, rename_map_renaming; [done|].
  apply Forall_forall. intros c Hc.
  change (map ?f ?l) with (f <$> l) in Hc.
  apply list_elem_of_fmap in Hc as (c' & -> & _).
  apply str_lower_normalized.
Qed.

(** ** The candidates *)

Lemma first_present_elem (header names : list string) (c : string) :
  first_present header names = Some c → c ∈ names ∧ c ∈ header.
Proof.
  unfold first_present. intros H.
  apply head_Some_elem_of, list_elem_of_filter in H. tauto.
Qed.

Lemma first_present_None (header names : list string) :
  first_present header names = None ↔ ∀ n, n ∈ names → n ∉ header.
Proof.
  unfold first_present. rewrite head_None. split.
  - intros Hnil n Hn Hin.
    assert (n ∈ filter (λ name, name ∈ header) names) as H
      by by apply list_elem_of_filter.
    rewrite Hnil in H. by apply elem_of_nil in H.
  - intros H. apply elem_of_nil_inv. intros n Hn.
    apply list_elem_of_filter in Hn as [Hin Hn]. by apply (H n).
Qed.

(** The candidate lists do not overlap. *)
Lemma candidates_disjoint :
  NoDup (mjoin candidates.*2).
Proof. apply (bool_decide_unpack _). vm_compute. exact I. Qed.

Lemma candidates_same_group (t t' : string) (names names' : list string)
    (n : string) :
  (t, names) ∈ candidates → (t', names') ∈ candidates →
  n ∈ names → n ∈ names' → t = t' ∧ names = names'.
Proof.
  pose proof candidates_disjoint as Hnd. revert Hnd.
  generalize candidates. intros gs.
  induction gs as [|[t0 names0] gs IH]; intros Hnd H1 H2 Hn Hn'.
  { by apply elem_of_nil in H1. }
  rewrite fmap_cons in Hnd. simpl in Hnd.
  apply NoDup_app in Hnd as (Hg & Hdisj & Hgs).
  assert (∀ t1 names1, (t1, names1) ∈ gs → n ∈ names1 → n ∈ mjoin gs.*2)
    as Hjoin.
  { intros t1 names1 Hin Hn1. apply list_elem_of_join.
    exists names1. split; [done|]. apply list_elem_of_fmap.
    by exists (t1, names1). }
  apply elem_of_cons in H1 as [[= -> ->]|H1], H2 as [[= -> ->]|H2].
  - done.
  - exfalso. apply (Hdisj n); [done|]. by apply (Hjoin t' names').
  - exfalso. apply (Hdisj n); [done|]. by apply (Hjoin t names).
  - by apply IH.
Qed.

(** Each canonical name is the first or the second of its candidates. *)
Lemma candidates_target_position (t : string) (names : list string) :
  (t, names) ∈ candidates →
  (∃ rest, names = t :: rest)
  ∨ (∃ n0 rest, names = n0 :: t :: rest ∧ n0 ≠ t).
Proof.
  unfold candidates. rewrite !elem_of_cons.
  intros H. repeat destruct H as [[= -> ->]|H];
    try (left; eexists; reflexivity);
    try (right; eexists _, _; split; [reflexivity|done]).
  by apply elem_of_nil in H.
Qed.

Lemma candidates_target_elem (t : string) (names : list string) :
  (t, names) ∈ candidates → t ∈ names.
Proof.
  intros H. apply candidates_target_position in H
    as [[rest ->]|(n0 & rest & -> & _)]; in_names.
Qed.

Lemma candidates_normalized (t : string) (names : list string) (n : string) :
  (t, names) ∈ candidates → n ∈ names → normalized n = n.
Proof.
  unfold candidates. rewrite !elem_of_cons.
  intros H. repeat destruct H as [[= -> ->]|H];
    [rewrite !elem_of_cons; intros Hn;
     repeat destruct Hn as [->|Hn];
     try reflexivity; by apply elem_of_nil in Hn..|].
  by apply elem_of_nil in H.
Qed.

(** What the renaming holds: the first present candidate of each canonical
    name, mapped to that name. *)
Lemma renaming_lookup (header : list string) (c t : string) :
  renaming header !! c = Some t
  ↔ ∃ names, (t, names) ∈ candidates ∧ first_present header names = Some c.
Proof.
  unfold renaming.
  assert (∀ gs (m : gmap string string),
            NoDup (mjoin gs.*2) →
            foldl (λ m (target : string * list string),
                     match first_present header target.2 with
                     | Some candidate => <[candidate := target.1]> m
                     | None => m
                     end) m gs !! c = Some t
            ↔ (∃ names, (t, names) ∈ gs
                        ∧ first_present header names = Some c)
              ∨ (m !! c = Some t
                 ∧ ∀ t' names, (t', names) ∈ gs →
                               first_present header names ≠ Some c)) as H.
  { intros gs. induction gs as [|[t0 names0] gs IH]; intros m Hnd.
    - simpl. split.
      + intros Hm. right. split; [done|]. intros ? ? Hin.
        by apply elem_of_nil in Hin.
      + intros [(names & Hin & _)|[Hm _]]; [by apply elem_of_nil in Hin|done].
    - rewrite fmap_cons in Hnd. simpl in Hnd.
      apply NoDup_app in Hnd as (Hg & Hdisj & Hgs).
      simpl. rewrite (IH _ Hgs). clear IH.
      assert (first_present header names0 = Some c →
              ∀ t' names, (t', names) ∈ gs →
                          first_present header names ≠ Some c) as Hother.
      { intros H0 t' names Hin Hc.
        apply first_present_elem in H0 as [H0 _].
        apply first_present_elem in Hc as [Hc _].
        apply (Hdisj c H0). apply list_elem_of_join.
        exists names. split; [done|]. apply list_elem_of_fmap.
        by exists (t', names). }
      split.
      + intros [(names & Hin & Hc)|[Hm Hnone]].
        * left. exists names. split; [by right|done].
        * destruct (first_present header names0) as [c0|] eqn:E0.
          -- destruct (decide (c0 = c)) as [->|Hne].
             ++ rewrite lookup_insert_eq in Hm. simplify_eq.
                left. exists names0. split; [by left|done].
             ++ rewrite lookup_insert_ne in Hm by done.
                right. split; [done|]. intros t' names Hin.
                apply elem_of_cons in Hin as [[= -> ->]|Hin]; [|eauto].
                rewrite E0. congruence.
          -- right. split; [done|]. intros t' names Hin.
             apply elem_of_cons in Hin as [[= -> ->]|Hin]; [|eauto].
             by rewrite E0.
      + intros [(names & Hin & Hc)|[Hm Hnone]].
        * apply elem_of_cons in Hin as [[= -> ->]|Hin].
          -- right. rewrite Hc, lookup_insert_eq. split; [done|].
             by apply Hother.
          -- left. by exists names.
        * right. split; [|intros t' names Hin; apply (Hnone t' names); by right].
          pose proof (Hnone t0 names0 ltac:(by left)) as H0.
          destruct (first_present header names0) as [c0|]; [|done].
          rewrite lookup_insert_ne; [done|]. congruence. }
  rewrite (H candidates ∅ candidates_disjoint), lookup_empty.
  split; [|by left]. by intros [?|[? _]].
Qed.

(** ** What the function does to a header *)

Lemma first_present_cons (header : list string) (n : string)
    (names : list string) :
  first_present header (n :: names)
  = if decide (n ∈ header) then Some n else first_present header names.
Proof.
  unfold first_present. destruct (decide (n ∈ header)).
  - by rewrite filter_cons_True.
  - by rewrite filter_cons_False.
Qed.

Lemma rename_lookup (mapping : gmap string string) (header : list string)
    (i : nat) (c : string) :
  header !! i = Some c →
  rename mapping header !! i = Some (default c (mapping !! c)).
Proof.
  intros Hi. unfold rename. change (map ?f ?l) with (f <$> l).
  by rewrite list_lookup_fmap, Hi.
Qed.

Lemma rename_elem (mapping : gmap string string) (header : list string)
    (r : string) :
  r ∈ rename mapping header
  ↔ ∃ c, c ∈ header ∧ r = default c (mapping !! c).
Proof.
  unfold rename. change (map ?f ?l) with (f <$> l).
  rewrite list_elem_of_fmap. split; intros (c & H1 & H2); exists c; done.
Qed.

(** A candidate is in the renamed header when it is the canonical name of
    a group that was found, or when it was there and was not renamed. *)
Lemma renamed_candidate (header : list string) (t : string)
    (names : list string) (n : string) :
  (t, names) ∈ candidates → n ∈ names →
  n ∈ rename (renaming header) header
  ↔ (n = t ∧ first_present header names ≠ None)
    ∨ (n ∈ header ∧ first_present header names ≠ Some n).
Proof.
  intros Hg Hn. rewrite rename_elem. split.
  - intros (c & Hc & ->).
    destruct (renaming header !! c) as [t'|] eqn:E; simpl in *.
    + apply renaming_lookup in E as (names' & Hg' & Hfirst).
      pose proof (candidates_target_elem _ _ Hg') as Ht'.
      destruct (candidates_same_group _ _ _ _ _ Hg Hg' Hn Ht') as [-> ->].
      left. split; [done|]. by rewrite Hfirst.
    + right. split; [done|]. intros Hfirst.
      assert (renaming header !! c = Some t) as E'
        by (apply renaming_lookup; eauto).
      congruence.
  - intros [[-> Hfirst]|[Hin Hfirst]].
    + destruct (first_present header names) as [c|] eqn:E; [|done].
      exists c. split; [by apply first_present_elem in E as [_ ?]|].
      assert (renaming header !! c = Some t) as ->
        by (apply renaming_lookup; eauto).
      done.
    + exists n. split; [done|].
      destruct (renaming header !! n) as [t'|] eqn:E; [|done].
      apply renaming_lookup in E as (names' & Hg' & Hfirst').
      apply first_present_elem in Hfirst' as Hn'. destruct Hn' as [Hn' _].
      destruct (candidates_same_group _ _ _ _ _ Hg Hg' Hn Hn') as [-> ->].
      done.
Qed.


(** The first candidate found in a standardized header is the canonical
    name itself. *)
Lemma first_present_renamed (header : list string) (t : string)
    (names : list string) (r : string) :
  (t, names) ∈ candidates →
  first_present (rename (renaming header) header) names = Some r → r = t.
Proof.
  intros Hg Hr.
  set (result := rename (renaming header) header) in *.
  assert (∀ n, n ∈ names → n ∈ result → n ≠ t →
               n ∈ header ∧ first_present header names ≠ Some n) as Hkept.
  { intros n Hn Hin Hne.
    apply (renamed_candidate header t names n Hg Hn) in Hin
      as [[-> _]|Hin]; done. }
  assert (∀ n, n ∈ names → n ∈ result → t ∈ result) as Htarget.
  { intros n Hn Hin.
    apply (renamed_candidate header t names t Hg
             (candidates_target_elem _ _ Hg)).
    left. split; [done|].
    apply (renamed_candidate header t names n Hg Hn) in Hin
      as [[_ Hfirst]|[Hin _]]; [done|].
    rewrite first_present_None. intros Hnone. by apply (Hnone n). }
  pose proof (first_present_elem _ _ _ Hr) as [Hrn Hrin].
  destruct (candidates_target_position _ _ Hg)
    as [[rest ->]|(n0 & rest & -> & Hn0)].
  - rewrite first_present_cons in Hr.
    rewrite decide_True in Hr by (by apply (Htarget r)). congruence.
  - rewrite first_present_cons in Hr.
    destruct (decide (n0 ∈ result)) as [Hin0|Hin0].
    + exfalso. destruct (Hkept n0) as [Hh Hfirst]; [by left|done|done|].
      apply Hfirst. rewrite first_present_cons. by rewrite decide_True.
    + rewrite first_present_cons in Hr.
      rewrite decide_True in Hr by (by apply (Htarget r)). congruence.
Qed.

(** X14. [standardize_column_names] is idempotent: a header it returned is
    returned as it is. *)
Theorem standardize_column_names_idempotent (cols : list string) :
  standardize_column_names (standardize_column_names cols)
  = standardize_column_names cols.
Proof.
  rewrite (standardize_column_names_eq (standardize_column_names cols)).
  rewrite standardize_column_names_eq.
  set (header := map normalized cols).
  set (result := rename (renaming header) header).
  assert (map normalized result = result) as ->.
  { etrans; [|apply map_id]. apply map_ext_in. intros r Hr.
    apply list_elem_of_In, rename_elem in Hr as (c & Hc & ->).
    destruct (renaming header !! c) as [t|] eqn:E; simpl.
    - apply renaming_lookup in E as (names & Hg & _).
      apply (candidates_normalized t names); [done|].
      by apply candidates_target_elem.
    - unfold header in Hc. change (map ?f ?l) with (f <$> l) in Hc.
      apply list_elem_of_fmap in Hc as (c' & -> & _).
      apply normalized_idempotent. }
  unfold rename at 1. etrans; [|apply map_id]. apply map_ext_in.
  intros r Hr. destruct (renaming result !! r) as [t|] eqn:E; [|done].
  apply renaming_lookup in E as (names & Hg & Hfirst). simpl.
  symmetry. by apply (first_present_renamed header t names).
Qed.

(** X15. The function can give two columns the same name: when the
    canonical name itself is among the normalized names but an earlier
    candidate is too, the candidate is renamed and the canonical name stays,
    so the result has the canonical name twice. *)
Theorem standardize_column_names_collision (cols : list string)
    (t c : string) (names : list string) :
  let header := map normalized cols in
  (t, names) ∈ candidates →
  first_present header names = Some c → c ≠ t → t ∈ header →
  ∃ i j, i ≠ j
         ∧ standardize_column_names cols !! i = Some t
         ∧ standardize_column_names cols !! j = Some t.
Proof.
  intros header Hg Hfirst Hne Ht.
  rewrite standardize_column_names_eq. fold header.
  pose proof (first_present_elem _ _ _ Hfirst) as [Hcn Hc].
  apply list_elem_of_lookup in Hc as [i Hi].
  apply list_elem_of_lookup in Ht as [j Hj].
  exists i, j. split; [intros ->; congruence|]. split.
  - rewrite (rename_lookup _ _ i c Hi).
    assert (renaming header !! c = Some t) as ->
      by (apply renaming_lookup; eauto).
    done.
  - rewrite (rename_lookup _ _ j t Hj).
    destruct (renaming header !! t) as [t'|] eqn:E; [|done].
    apply renaming_lookup in E as (names' & Hg' & Hfirst').
    apply first_present_elem in Hfirst' as Ht'. destruct Ht' as [Ht' _].
    destruct (candidates_same_group _ _ _ _ _ Hg Hg'
                (candidates_target_elem _ _ Hg) Ht') as [-> ->].
    congruence.
Qed.

Lemma standardize_column_names_collision_witness :
  ("invoice_no", ["invoiceno"; "invoice_no"; "invoice_number"]) ∈ candidates
  ∧ first_present (map normalized ["InvoiceNo"; "invoice_no"])
      ["invoiceno"; "invoice_no"; "invoice_number"] = Some "invoiceno"
  ∧ standardize_column_names ["InvoiceNo"; "invoice_no"]
    = ["invoice_no"; "invoice_no"]
  ∧ ∃ i j, i ≠ j
           ∧ standardize_column_names ["InvoiceNo"; "invoice_no"] !! i
             = Some "invoice_no"
           ∧ standardize_column_names ["InvoiceNo"; "invoice_no"] !! j
             = Some "invoice_no".
Proof.
  assert (("invoice_no", ["invoiceno"; "invoice_no"; "invoice_number"])
          ∈ candidates) as Hg by (by left).
  assert (first_present (map normalized ["InvoiceNo"; "invoice_no"])
            ["invoiceno"; "invoice_no"; "invoice_number"] = Some "invoiceno")
    as Hfirst by (vm_compute; reflexivity).
  split; [exact Hg|]. split; [exact Hfirst|].
  split; [vm_compute; reflexivity|].
  apply (standardize_column_names_collision ["InvoiceNo"; "invoice_no"]
           "invoice_no" "invoiceno"
           ["invoiceno"; "invoice_no"; "invoice_number"] Hg Hfirst).
  - done.
  - vm_compute. right. left.
Defined.

(** ** Removal leaves no flagged row *)

Lemma outlier_flags_bool (name : string) (df : DataFrame) :
  Forall (λ lv : nat * cell, ∃ b, lv.2 = Bool b) (outlier_flags name df).
Proof.
  unfold outlier_flags. destruct (detect_outliers_iqr _) as [[mask lo] hi].
  apply Forall_map, Forall_forall. intros lb _. simpl. eauto.
Qed.

Lemma flag_columns_bool (df : DataFrame) :
  Forall (λ ir : nat * Row,
            (has_column "quantity" df = true →
             ∃ b, ir.2 !!! "is_outlier_quantity" = Bool b)
            ∧ (has_column "unit_price" df = true →
               ∃ b, ir.2 !!! "is_outlier_unit_price" = Bool b))
         (rows (flag_columns df).1).
Proof.
  unfold flag_columns.
  destruct (has_column "quantity" df) eqn:Eq.
  - rewrite has_column_assign. simpl. rewrite orb_false_r.
    set (d1 := assign "is_outlier_quantity" _ df).
    assert (Forall (λ ir : nat * Row,
                      ∃ b, ir.2 !!! "is_outlier_quantity" = Bool b)
                   (rows d1)) as H1.
    { apply (assign_column_Forall (λ c, ∃ b, c = Bool b)).
      apply outlier_flags_bool. }
    destruct (has_column "unit_price" df) eqn:Ep; cbn [fst snd].
    + pose proof (assign_column_Forall (λ c, ∃ b, c = Bool b)
                    "is_outlier_unit_price"
                    (outlier_flags "unit_price" d1) d1
                    (outlier_flags_bool _ _)) as H2.
      assert (Forall (λ ir : nat * Row,
                        ∃ b, ir.2 !!! "is_outlier_quantity" = Bool b)
                     (rows (assign "is_outlier_unit_price"
                              (outlier_flags "unit_price" d1) d1))) as H1'.
      { apply (assign_Forall
                 (λ r, ∃ b, r !!! "is_outlier_quantity" = Bool b)); [|done].
        intros r v. by rewrite lookup_total_insert_ne. }
      rewrite Forall_forall in H2. rewrite Forall_forall in H1'.
      apply Forall_forall. intros ir Hin. split; intros _; auto.
    + eapply Forall_impl; [exact H1|]. intros ir Hb. split; [done|].
      intros; done.
  - destruct (has_column "unit_price" df) eqn:Ep; cbn [fst snd].
    + pose proof (assign_column_Forall (λ c, ∃ b, c = Bool b)
                    "is_outlier_unit_price"
                    (outlier_flags "unit_price" df) df
                    (outlier_flags_bool _ _)) as H2.
      eapply Forall_impl; [exact H2|]. intros ir Hb. split; [done|].
      intros _. exact Hb.
    + apply Forall_forall. intros ir _. split; intros; done.
Qed.

Lemma removed_rows_unflagged (d0 : DataFrame) :
  Forall (λ ir, unflagged_row d0 ir.2)
    (filter (λ ir, flagged (flag_columns d0).2 ir.2 = false)
            (rows (flag_columns d0).1)).
Proof.
  apply Forall_forall. intros ir Hin.
  apply list_elem_of_filter in Hin as [Hflag Hin].
  pose proof (flag_columns_bool d0) as Hbool.
  rewrite Forall_forall in Hbool. destruct (Hbool _ Hin) as [Hq Hp].
  rewrite flag_columns_names in Hflag. unfold flagged in Hflag.
  split; intros Hc.
  - destruct (Hq Hc) as [b Hb]. rewrite Hc in Hflag. simpl in Hflag.
    rewrite Hb in Hflag. simpl in Hflag.
    apply orb_false_iff in Hflag as [-> _]. done.
  - destruct (Hp Hc) as [b Hb]. rewrite Hc in Hflag.
    rewrite existsb_app in Hflag.
    apply orb_false_iff in Hflag as [_ Hflag]. simpl in Hflag.
    rewrite Hb in Hflag. simpl in Hflag.
    apply orb_false_iff in Hflag as [-> _]. done.
Qed.

Section Removal.

Context (parse_datetime : list cell → cell → option Timestamp)
        (parse_numeric : cell → option Qc)
        (float_of_str : string → option float)
        (str_of_num : Qc → string)
        (str_of_date : Timestamp → string)
        (sort_values_desc : string → list (nat * Row) → list (nat * Row)).

Lemma has_column_derived (df df1 : DataFrame) (c : string) :
  c ∉ ["total_value"; "year"; "month"] →
  handle_missing_values float_of_str str_of_num str_of_date
    (drop_invalid_invoices (convert_dtypes parse_datetime parse_numeric df))
  = Ok df1 →
  has_column c
    (drop_duplicates
       (add_derived_columns (normalize_categorical str_of_num str_of_date df1)))
  = has_column c df.
Proof.
  intros Hc Hdf1. rewrite !not_elem_of_cons in Hc.
  destruct Hc as (H1 & H2 & H3 & _).
  transitivity (has_column c (normalize_categorical str_of_num str_of_date df1)).
  - unfold drop_duplicates.
    change (has_column c (select ?m ?d)) with (has_column c d).
    unfold add_derived_columns.
    repeat match goal with
           | |- context [if ?b then _ else _] => destruct b
           end;
      rewrite ?has_column_assign;
      rewrite ?(bool_decide_eq_false_2 (c = _)) by done;
      by rewrite ?orb_false_r.
  - unfold has_column.
    rewrite columns_normalize_categorical,
      (columns_handle_missing_values _ _ _ _ _ Hdf1),
      columns_drop_invalid_invoices, columns_convert_dtypes.
    done.
Qed.

(** X16. With removal asked for, no row of [retail_cleaned.csv] has an
    outlier flag set: where the table has a quantity, [is_outlier_quantity]
    is false in every row written, and likewise for the unit price. *)
Theorem removal_leaves_no_outlier (df : DataFrame) (body : list Row) :
  ("retail_cleaned.csv", body)
  ∈ csv_written
      (clean_and_analyze parse_datetime parse_numeric float_of_str
         str_of_num str_of_date sort_values_desc df true []).2 →
  Forall (unflagged_row df) body.
Proof.
  intros Hin.
  set (I := λ e, match e with
                 | ToCsv path _ body =>
                     path = "retail_cleaned.csv" →
                     Forall (unflagged_row df) body
                 | SaveFig _ => True
                 end).
  assert (triple I
            (clean_and_analyze parse_datetime parse_numeric float_of_str
               str_of_num str_of_date sort_values_desc df true)
            (λ _, True)) as Htriple.
  { unfold clean_and_analyze.
    eapply (triple_bind I _ _
              (λ d, Forall (λ ir, unflagged_row df ir.2) (rows d))).
    - unfold clean.
      eapply (triple_bind I _ _
                (λ df1, handle_missing_values float_of_str str_of_num
                          str_of_date
                          (drop_invalid_invoices
                             (convert_dtypes parse_datetime parse_numeric df))
                        = Ok df1));
        [apply triple_lift; auto|].
      intros df1 Hdf1.
      eapply triple_bind.
      + apply (triple_deduplicate_and_log I); [done|].
        instantiate (1 := λ d, d = drop_duplicates
                                     (add_derived_columns
                                        (normalize_categorical str_of_num
                                           str_of_date df1))).
        reflexivity.
      + intros d0 ->. intros tr Htr. rewrite flag_run. cbn [fst snd]. split.
        * apply Forall_app. split; [done|].
          destruct (filter _ _); by repeat constructor.
        * intros d [= <-]. simpl.
          eapply Forall_impl; [apply removed_rows_unflagged|].
          intros ir [Hq Hp]. unfold unflagged_row.
          rewrite !(has_column_derived df df1) in Hq, Hp
            by (done || not_in_names).
          done.
    - intros d Hd. eapply triple_bind.
      + apply triple_to_csv. intros _. by apply Forall_fmap.
      + intros _ _. by apply triple_create_summary_tables. }
  destruct (Htriple [] (Forall_nil_2 _)) as [Hall _].
  apply csv_written_event in Hin as [header Hin].
  rewrite Forall_forall in Hall. by apply (Hall _ Hin).
Qed.

End Removal.

Lemma removal_leaves_no_outlier_witness :
  let body :=
    (default ("", [])
       (csv_written (Sample.run nine_quantities true).2 !! 2%nat)).2 in
  ("retail_cleaned.csv", body)
  ∈ csv_written (Sample.run nine_quantities true).2
  ∧ length body = 4%nat
  ∧ Forall (unflagged_row nine_quantities) body.
Proof.
  intros body.
  assert (("retail_cleaned.csv", body)
          ∈ csv_written (Sample.run nine_quantities true).2) as Hin
    by (apply (bool_decide_unpack _); vm_compute; exact I).
  split; [exact Hin|]. split; [vm_compute; reflexivity|].
  exact (removal_leaves_no_outlier Sample.parse_datetime Sample.parse_numeric
           Sample.float_of_str Sample.str_of_num Sample.str_of_date
           Sample.sort_values_desc nine_quantities body Hin).
Defined.

(** ** The missing-value handler, column by column *)

Lemma traverse_Forall2 {A B} (f : A → result B) (l : list A) (ys : list B) :
  traverse f l = Ok ys → Forall2 (λ x y, f x = Ok y) l ys.
Proof.
  revert ys. induction l as [|x l IH]; intros ys Hys; simpl in Hys.
  - simplify_eq. constructor.
  - destruct (f x) as [y|e] eqn:E; [|done].
    destruct (traverse f l) as [ys'|e] eqn:E'; [|done]. simplify_eq.
    constructor; auto.
Qed.

(** Assigning a series that has a value for every row. *)
Lemma index_assign (name : string) (s : Series) (d : DataFrame) :
  length s = length (rows d) → index (assign name s d) = index d.
Proof.
  unfold index, assign. simpl. generalize (rows d). intros l. revert s.
  induction l as [|ir l IH]; intros [|lv s] Hlen; simpl in *;
    try discriminate; [done|].
  f_equal. apply IH. lia.
Qed.

Lemma column_assign_other (name c : string) (s : Series) (d : DataFrame) :
  c ≠ name → length s = length (rows d) →
  column c (assign name s d) = column c d.
Proof.
  intros Hne. unfold column, assign. simpl. generalize (rows d).
  intros l. revert s.
  induction l as [|ir l IH]; intros [|lv s] Hlen; simpl in *;
    try discriminate; [done|].
  rewrite lookup_total_insert_ne by done. f_equal. apply IH. lia.
Qed.

Lemma column_assign_values (name : string) (s : Series) (d : DataFrame) :
  s.*1 = index d → column name (assign name s d) = s.
Proof.
  unfold column, assign, index. simpl. generalize (rows d). intros l.
  revert s. induction l as [|[i r] l IH]; intros [|[i' v] s] Hs;
    simpl in *; try done.
  simplify_eq. rewrite lookup_total_insert_eq. f_equal. by apply IH.
Qed.

Lemma column_labels (name : string) (d : DataFrame) :
  (column name d).*1 = index d.
Proof.
  unfold column, index. change (map ?f ?l) with (f <$> l).
  by rewrite <- list_fmap_compose.
Qed.

Section MissingValues.

Context (float_of_str : string → option float)
        (str_of_num : Qc → string)
        (str_of_date : Timestamp → string).

Lemma cast_series (l s : Series) :
  Forall2 (λ x y : nat * cell,
             match astype_float64 float_of_str x.2 with
             | Ok c => Ok (x.1, c)
             | Raise e => Raise e
             end = Ok y) l s →
  s.*1 = l.*1
  ∧ Forall2 (λ lv lv', lv'.1 = lv.1
                       ∧ astype_float64 float_of_str lv.2 = Ok lv'.2) l s.
Proof.
  induction 1 as [|[i v] [i' v'] l s Hx _ [IH1 IH2]]; [by split; constructor|].
  simpl in Hx.
  destruct (astype_float64 float_of_str v) as [c|] eqn:Ecast; [|done].
  simplify_eq. split.
  - rewrite !fmap_cons. simpl. by f_equal.
  - constructor; [by simpl|done].
Qed.

(** X17. [handle_missing_values], when it returns, keeps the columns and
    the rows of the table; a description becomes the trimmed text of the
    value, "Unknown" where it was missing; a customer identifier becomes
    what its cast to a float gives; every other column is as it was.  It
    raises exactly the [ValueError] or [TypeError] of a customer identifier
    that cannot be cast. *)
Theorem handle_missing_values_spec (d : DataFrame) :
  match handle_missing_values float_of_str str_of_num str_of_date d with
  | Ok d' =>
      columns d' = columns d
      ∧ index d' = index d
      ∧ (has_column "description" d = true →
         column "description" d'
         = smap (description_policy str_of_num str_of_date)
                (column "description" d))
      ∧ (has_column "customer_id" d = true →
         Forall2 (λ lv lv', lv'.1 = lv.1
                            ∧ astype_float64 float_of_str lv.2 = Ok lv'.2)
                 (column "customer_id" d) (column "customer_id" d'))
      ∧ ∀ c, (c = "description" → has_column "description" d = false) →
             (c = "customer_id" → has_column "customer_id" d = false) →
             column c d' = column c d
  | Raise e =>
      has_column "customer_id" d = true
      ∧ (e = ValueError ∨ e = TypeError)
      ∧ Exists (λ ir, astype_float64 float_of_str (ir.2 !!! "customer_id")
                      = Raise e) (rows d)
  end
  ∧ description_policy str_of_num str_of_date NaN = Str "Unknown"
  ∧ ∀ s, description_policy str_of_num str_of_date (Str s)
         = Str (PyStr.strip s).
Proof.
  split; [|split; [reflexivity|intros s; reflexivity]].
  destruct (handle_missing_values float_of_str str_of_num str_of_date d)
    as [d'|e] eqn:Hrun; [|by apply handle_missing_values_raises in Hrun].
  split; [by apply (columns_handle_missing_values _ _ _ _ _ Hrun)|].
  unfold handle_missing_values in Hrun.
  (* the description *)
  set (d2 := if has_column "description" d then _ else d) in Hrun.
  assert (index d2 = index d
          ∧ (has_column "description" d = true →
             column "description" d2
             = smap (description_policy str_of_num str_of_date)
                    (column "description" d))
          ∧ (∀ c, (c = "description" → has_column "description" d = false) →
                  column c d2 = column c d)
          ∧ has_column "customer_id" d2 = has_column "customer_id" d)
    as (Hindex2 & Hdescription2 & Hother2 & Hhas2).
  { unfold d2. destruct (has_column "description" d) eqn:Ed.
    - split; [|split; [|split]].
      + rewrite !index_assign; [done|..]; unfold smap, column;
          by rewrite ?length_map.
      + intros _. rewrite column_assign_smap_eq, column_assign_smap_eq.
        by rewrite smap_smap.
      + intros c Hc. destruct (decide (c = "description")) as [->|Hne].
        * by specialize (Hc eq_refl).
        * by rewrite !column_assign_smap_ne.
      + rewrite !has_column_assign. simpl. by rewrite !orb_false_r.
    - done. }
  rewrite Hhas2 in Hrun.
  destruct (has_column "customer_id" d) eqn:Ec.
  - destruct (traverse _ _) as [s|e] eqn:E; [|done]. simplify_eq.
    apply traverse_Forall2 in E.
    apply cast_series in E as [Hlabels Hcast].
    rewrite column_labels in Hlabels.
    assert (length s = length (rows d2)) as Hlen.
    { apply (f_equal length) in Hlabels. unfold index in Hlabels.
      by rewrite length_fmap, length_map in Hlabels. }
    split; [by rewrite index_assign|].
    split; [|split].
    + intros Hd. rewrite column_assign_other by done. by apply Hdescription2.
    + intros _. rewrite column_assign_values by done.
      assert (column "customer_id" d2 = column "customer_id" d) as <-
        by (by apply Hother2).
      done.
    + intros c Hd Hc. rewrite column_assign_other; [by apply Hother2| |done].
      intros ->. by specialize (Hc eq_refl).
  - simplify_eq. split; [done|]. split; [done|]. split; [done|].
    intros c Hd _. by apply Hother2.
Qed.

End MissingValues.

(** ** The header of the cleaned table *)

Lemma columns_assign (name : string) (s : Series) (d : DataFrame) :
  columns (assign name s d) = add_column name (columns d).
Proof. reflexivity. Qed.

Lemma elem_of_add_column (c name : string) (cols : list string) :
  c ∈ add_column name cols ↔ c ∈ cols ∨ c = name.
Proof.
  unfold add_column. case_bool_decide as Hin.
  - split; [auto|]. by intros [?| ->].
  - by rewrite elem_of_app, list_elem_of_singleton.
Qed.

Lemma columns_add_derived_columns (d : DataFrame) :
  columns (add_derived_columns d)
  = let cols := columns d in
    let cols :=
      if has_column "quantity" d && has_column "unit_price" d
      then add_column "total_value" cols else cols in
    if has_column "invoice_date" d
    then add_column "month" (add_column "year" cols) else cols.
Proof.
  unfold add_derived_columns. cbv zeta.
  destruct (has_column "quantity" d && has_column "unit_price" d).
  - rewrite has_column_assign. simpl. rewrite orb_false_r.
    destruct (has_column "invoice_date" d); by rewrite ?columns_assign.
  - destruct (has_column "invoice_date" d); by rewrite ?columns_assign.
Qed.

Lemma columns_flag_columns (d : DataFrame) :
  columns (flag_columns d).1
  = let cols := columns d in
    let cols :=
      if has_column "quantity" d
      then add_column "is_outlier_quantity" cols else cols in
    if has_column "unit_price" d
    then add_column "is_outlier_unit_price" cols else cols.
Proof.
  unfold flag_columns. cbv zeta.
  destruct (has_column "quantity" d).
  - rewrite has_column_assign. simpl. rewrite orb_false_r.
    destruct (has_column "unit_price" d); by rewrite ?columns_assign.
  - destruct (has_column "unit_price" d); by rewrite ?columns_assign.
Qed.

Section Header.

Context (parse_datetime : list cell → cell → option Timestamp)
        (parse_numeric : cell → option Qc)
        (float_of_str : string → option float)
        (str_of_num : Qc → string)
        (str_of_date : Timestamp → string)
        (sort_values_desc : string → list (nat * Row) → list (nat * Row)).

Lemma columns_flagged (df df1 : DataFrame) :
  handle_missing_values float_of_str str_of_num str_of_date
    (drop_invalid_invoices (convert_dtypes parse_datetime parse_numeric df))
  = Ok df1 →
  columns (flag_columns
             (drop_duplicates
                (add_derived_columns
                   (normalize_categorical str_of_num str_of_date df1)))).1
  = cleaned_header (columns df).
Proof.
  intros Hdf1. rewrite columns_flag_columns. cbv zeta.
  rewrite !(has_column_derived parse_datetime parse_numeric float_of_str
              str_of_num str_of_date df df1) by (done || not_in_names).
  change (columns (drop_duplicates ?d)) with (columns d).
  rewrite columns_add_derived_columns. cbv zeta.
  set (d2 := normalize_categorical str_of_num str_of_date df1).
  assert (columns d2 = columns df) as Hcols.
  { unfold d2.
    rewrite columns_normalize_categorical,
      (columns_handle_missing_values _ _ _ _ _ Hdf1),
      columns_drop_invalid_invoices, columns_convert_dtypes.
    done. }
  unfold cleaned_header, has_column. by rewrite Hcols.
Qed.

(** X18. The header of [retail_cleaned.csv] is the header of the table
    read, followed by [total_value] (with a quantity and a unit price),
    [year] and [month] (with an invoice date), [is_outlier_quantity] and
    [is_outlier_unit_price] (with a quantity, a unit price), in this order;
    a name the table read already has keeps its place. *)
Theorem cleaned_header_spec (df : DataFrame) (remove : bool)
    (header : list string) (body : list Row) :
  ToCsv "retail_cleaned.csv" header body
  ∈ (clean_and_analyze parse_datetime parse_numeric float_of_str
       str_of_num str_of_date sort_values_desc df remove []).2 →
  header = cleaned_header (columns df).
Proof.
  intros Hin.
  set (I := λ e, match e with
                 | ToCsv path header _ =>
                     path = "retail_cleaned.csv" →
                     header = cleaned_header (columns df)
                 | SaveFig _ => True
                 end).
  assert (triple I
            (clean_and_analyze parse_datetime parse_numeric float_of_str
               str_of_num str_of_date sort_values_desc df remove)
            (λ _, True)) as Htriple.
  { unfold clean_and_analyze.
    eapply (triple_bind I _ _
              (λ d, columns d = cleaned_header (columns df))).
    - unfold clean.
      eapply (triple_bind I _ _
                (λ df1, handle_missing_values float_of_str str_of_num
                          str_of_date
                          (drop_invalid_invoices
                             (convert_dtypes parse_datetime parse_numeric df))
                        = Ok df1));
        [apply triple_lift; auto|].
      intros df1 Hdf1.
      eapply triple_bind.
      + apply (triple_deduplicate_and_log I); [done|].
        instantiate (1 := λ d, d = drop_duplicates
                                     (add_derived_columns
                                        (normalize_categorical str_of_num
                                           str_of_date df1))).
        reflexivity.
      + intros d0 ->. intros tr Htr. rewrite flag_run. cbn [fst snd]. split.
        * apply Forall_app. split; [done|].
          destruct (filter _ _); by repeat constructor.
        * intros d [= <-]. simpl. by apply columns_flagged.
    - intros d Hd. eapply triple_bind.
      + apply triple_to_csv. by intros _.
      + intros _ _. by apply triple_create_summary_tables. }
  destruct (Htriple [] (Forall_nil_2 _)) as [Hall _].
  rewrite Forall_forall in Hall. by apply (Hall _ Hin).
Qed.

End Header.

Lemma cleaned_header_spec_witness :
  let header :=
    ["invoice_no"; "invoice_date"; "description"; "quantity"; "unit_price";
     "customer_id"; "country"; "total_value"; "year"; "month";
     "is_outlier_quantity"; "is_outlier_unit_price"] in
  let body :=
    (default ("", []) (csv_written (Sample.run three_orders false).2 !! 0%nat)).2
  in
  ToCsv "retail_cleaned.csv" header body ∈ (Sample.run three_orders false).2
  ∧ header = cleaned_header (columns three_orders).
Proof.
  intros header body.
  assert (ToCsv "retail_cleaned.csv" header body
          ∈ (Sample.run three_orders false).2) as Hin.
  { apply list_elem_of_lookup. exists 0%nat. vm_compute. reflexivity. }
  split; [exact Hin|].
  exact (cleaned_header_spec Sample.parse_datetime Sample.parse_numeric
           Sample.float_of_str Sample.str_of_num Sample.str_of_date
           Sample.sort_values_desc three_orders false header body Hin).
Defined.

(** ** The top products account for the revenue *)



